(** * Customer-data validation and quality classification

    A shallow embedding of [src/validation.py] (the [DataValidator] rule
    engine) and of [src/data_quality.py] (the analyses that feed the
    severity tally of [generate_report]), with the properties the
    specification states about them.

    Data model.  A pandas [DataFrame] is its index length together with an
    ordered list of named columns.  A cell is [NaN] (what [pd.isna]
    accepts), an integer (a value of an [int64] column) or a [str] (a value
    of an [object] column); [float64] cells, whose printed form and whose
    conversions ([int] of an infinity raises [OverflowError]) are not
    modelled, are outside the model.  So are the Python [int]s beyond the
    range of [float], which an [object] column can hold: [float_of_int] and
    [income_issues_of_int] say what the code does with one.  Characters are the code points below
    256.  A Python [float] that the code computes with [float(value)] is
    an IEEE binary64 value ([spec_float] at precision 53, rounded to
    nearest even as CPython rounds); the text that an f-string prints for
    it is kept as a fragment of the string.

    Effects.  The validator object is a record passed from call to call;
    a method gives the validator as it leaves it together with what it
    returns or raises, so that what a pass has recorded stays when a later
    pass raises.  The functions without side effects are in an error
    monad, on which [try] and [except] are functions.  [print] calls, the
    report of [data_quality.py] but for its counters, and the file
    accesses of the [main] functions are left out. *)

From Stdlib Require Import ZArith String Ascii List Bool Lia.
From Stdlib Require Import Floats.SpecFloat DecimalString.
From stdpp Require Import base option list gmap sets strings.

#[local] Set Warnings "-clear-no-such-hyp".

Local Open Scope string_scope.
Local Open Scope Z_scope.

(** ** Python values, exceptions and builtins *)

Module Py.

Inductive exn :=
| KeyError (key : string)
| ValueError
| TypeError
| OverflowError.


Inductive result (A : Type) :=
| Ok (a : A)
| Raise (e : exn).
Arguments Ok {A} a.
Arguments Raise {A} e.

Definition bind {A B} (c : result A) (k : A → result B) : result B :=
  match c with
  | Ok a => k a
  | Raise e => Raise e
  end.

(** [try: c  except (ValueError, TypeError): h] *)
Definition try_except {A} (c : result A) (h : result A) : result A :=
  match c with
  | Raise ValueError | Raise TypeError => h
  | _ => c
  end.

(** [try: c  except: h] *)
Definition try_except_all {A} (c : result A) (h : result A) : result A :=
  match c with
  | Raise _ => h
  | _ => c
  end.

(** A cell of a data frame: a missing value, a value of an [int64] column
    (the functions below treat every [z] as they treat the ones in its
    range), or a [str]. *)
Inductive cell :=
| NaN
| VInt (z : Z)
| VStr (s : string).

#[global] Instance cell_eq_dec : EqDecision cell.
Proof. solve_decision. Defined.

#[global] Instance cell_countable : Countable cell.
Proof.
  refine (inj_countable'
    (λ c, match c with
          | NaN => inl ()
          | VInt z => inr (inl z)
          | VStr s => inr (inr s)
          end)
    (λ x, match x with
          | inl _ => NaN
          | inr (inl z) => VInt z
          | inr (inr s) => VStr s
          end) _).
  by intros [].
Defined.

Definition isna (v : cell) : bool :=
  match v with NaN => true | _ => false end.
Definition notna (v : cell) : bool := negb (isna v).

(** *** Characters and strings *)

Definition ord (c : ascii) : N := N_of_ascii c.

Definition in_range (lo hi : N) (c : ascii) : bool :=
  ((lo <=? ord c) && (ord c <=? hi))%N.

(** [str.isspace] of one character; also the class [\s] of [re]. *)
Definition isspace (c : ascii) : bool :=
  in_range 9 13 c || in_range 28 32 c || in_range 133 133 c
  || in_range 160 160 c.

(** The class [\d] of [re]. *)
Definition is_decimal (c : ascii) : bool := in_range 48 57 c.

(** [str.isdigit] of one character: the decimal digits and the
    superscripts one, two and three. *)
Definition isdigit (c : ascii) : bool :=
  is_decimal c || in_range 178 179 c || in_range 185 185 c.

Definition is_upper (c : ascii) : bool :=
  in_range 65 90 c || (in_range 192 222 c && negb (in_range 215 215 c)).

Definition lower_char (c : ascii) : ascii :=
  if is_upper c then ascii_of_N (ord c + 32) else c.

Definition chars (s : string) : list ascii := list_ascii_of_string s.
Definition text (l : list ascii) : string := string_of_list_ascii l.

Fixpoint lstrip_by (p : ascii → bool) (l : list ascii) : list ascii :=
  match l with
  | c :: l' => if p c then lstrip_by p l' else l
  | [] => []
  end.

Definition strip_by (p : ascii → bool) (l : list ascii) : list ascii :=
  rev (lstrip_by p (rev (lstrip_by p l))).

(** [s.strip()] *)
Definition strip (s : string) : string := text (strip_by isspace (chars s)).

(** [s.lower()] *)
Definition lower (s : string) : string := text (map lower_char (chars s)).

(** [sub in s] *)
Fixpoint contains_from (sub l : list ascii) : bool :=
  if decide (sub `prefix_of` l) then true
  else match l with
       | [] => false
       | _ :: l' => contains_from sub l'
       end.
Definition contains (sub s : string) : bool :=
  contains_from (chars sub) (chars s).

(** [s.count(c)] for a one-character [c] *)
Definition count_char (c : ascii) (s : string) : nat :=
  length (filter (λ x, x = c) (chars s)).

(** [s.split(sep)[0]] for a one-character separator *)
Fixpoint before_char (sep : ascii) (l : list ascii) : list ascii :=
  match l with
  | [] => []
  | c :: l' => if decide (c = sep) then [] else c :: before_char sep l'
  end.
Definition split_first (sep : ascii) (s : string) : string :=
  text (before_char sep (chars s)).

(** [str(z)] for an integer *)
Definition str_of_Z (z : Z) : string := NilZero.string_of_int (Z.to_int z).

(** [str(v)]; also what [f"{v}"] prints. *)
Definition str (v : cell) : string :=
  match v with
  | NaN => "nan"
  | VInt z => str_of_Z z
  | VStr s => s
  end.

(** *** [int(value)] and [float(value)] *)

(** The white space that the number parsers skip at both ends. *)
Definition num_space (c : ascii) : bool :=
  in_range 9 13 c || in_range 32 32 c || in_range 133 133 c
  || in_range 160 160 c.

Definition digit_val (c : ascii) : Z := Z.of_N (ord c) - 48.

Definition digits_val (l : list ascii) : Z :=
  foldl (λ acc c, 10 * acc + digit_val c) 0 l.

(** An underscore is accepted only between two digits. *)
Fixpoint underscores_ok (prev : option ascii) (l : list ascii) : bool :=
  match l with
  | [] => true
  | c :: l' =>
      if decide (c = "_"%char) then
        match prev, l' with
        | Some p, n :: _ => is_decimal p && is_decimal n && underscores_ok (Some c) l'
        | _, _ => false
        end
      else underscores_ok (Some c) l'
  end.

Definition drop_underscores (l : list ascii) : list ascii :=
  filter (λ c, c ≠ "_"%char) l.

Definition split_sign (l : list ascii) : bool * list ascii :=
  match l with
  | c :: l' =>
      if decide (c = "-"%char) then (true, l')
      else if decide (c = "+"%char) then (false, l')
      else (false, l)
  | [] => (false, [])
  end.

Definition all_digits (l : list ascii) : bool :=
  match l with
  | [] => false
  | _ => forallb is_decimal l
  end.

(** The digits that [int] converts at most: [sys.get_int_max_str_digits()]
    as the interpreter starts. *)
Definition max_str_digits : Z := 4300.

Definition int_of_str (s : string) : result Z :=
  let l := strip_by num_space (chars s) in
  if underscores_ok None l then
    let '(neg, body) := split_sign (drop_underscores l) in
    if all_digits body && (Z.of_nat (length body) <=? max_str_digits)
    then Ok (if neg then - digits_val body else digits_val body)
    else Raise ValueError
  else Raise ValueError.

(** [int(value)] for a cell that is not [NaN]. *)
Definition int (v : cell) : result Z :=
  match v with
  | NaN => Raise ValueError
  | VInt z => Ok z
  | VStr s => int_of_str s
  end.

Definition prec : Z := 53.
Definition emax : Z := 1024.

Definition float_of_Z (z : Z) : spec_float :=
  binary_normalize prec emax z 0 false.

(** The binary64 value nearest to [m * 10 ^ e], ties to even. *)
Definition float_of_decimal (neg : bool) (m : Z) (e : Z) : spec_float :=
  match m with
  | Zpos p =>
      if 0 <=? e then binary_round prec emax neg (p * Z.to_pos (10 ^ e)) 0
      else
        let '(mz, ez, lz) :=
          SFdiv_core_binary prec emax (Zpos p) 0 (10 ^ (- e)) 0 in
        binary_round_aux prec emax neg mz ez lz
  | _ => S754_zero neg
  end.

Fixpoint span_digits (l : list ascii) : list ascii * list ascii :=
  match l with
  | c :: l' =>
      if is_decimal c
      then let '(ds, r) := span_digits l' in (c :: ds, r)
      else ([], l)
  | [] => ([], [])
  end.

(** The exponent part: [e] or [E], an optional sign, one digit or more. *)
Definition parse_exponent (l : list ascii) : option Z :=
  match l with
  | [] => Some 0
  | c :: l' =>
      if decide (lower_char c = "e"%char) then
        let '(neg, ds) := split_sign l' in
        if all_digits ds
        then Some (if neg then - digits_val ds else digits_val ds)
        else None
      else None
  end.

Definition parse_decimal (neg : bool) (l : list ascii) : result spec_float :=
  let '(ip, r1) := span_digits l in
  let '(fp, r2) :=
    match r1 with
    | c :: r => if decide (c = "."%char) then span_digits r else ([], r1)
    | [] => ([], [])
    end in
  match (ip ++ fp)%list, parse_exponent r2 with
  | _ :: _, Some ex =>
      Ok (float_of_decimal neg (digits_val (ip ++ fp)%list)
            (ex - Z.of_nat (length fp)))
  | _, _ => Raise ValueError
  end.

Definition float_of_str (s : string) : result spec_float :=
  let l := strip_by num_space (chars s) in
  if underscores_ok None l then
    let '(neg, body) := split_sign (drop_underscores l) in
    let word := text (map lower_char body) in
    if decide (word = "inf" ∨ word = "infinity") then Ok (S754_infinity neg)
    else if decide (word = "nan") then Ok S754_nan
    else parse_decimal neg body
  else Raise ValueError.

(** [float(value)] for a cell that is not [NaN]. *)
Definition float (v : cell) : result spec_float :=
  match v with
  | NaN => Ok S754_nan
  | VInt z => Ok (float_of_Z z)
  | VStr s => float_of_str s
  end.

(** [float(z)] for a Python [int] of any size, which a cell of an [object]
    column can be: [OverflowError] when the nearest binary64 value is not
    finite.  No value of an [int64] column is that large. *)
Definition float_of_int (z : Z) : result spec_float :=
  match float_of_Z z with
  | S754_infinity _ => Raise OverflowError
  | x => Ok x
  end.

Definition float_lt (x y : spec_float) : bool := SFltb x y.

(** An f-string: literal text, and floats whose printed form is not
    computed here. *)
Inductive frag :=
| Lit (s : string)
| Flt (x : spec_float).

Definition fstring : Type := list frag.

(** *** Regular expressions of [re], matched by derivatives *)

Inductive regex :=
| Void
| Eps
| Class (p : ascii → bool)
| Cat (r1 r2 : regex)
| Alt (r1 r2 : regex)
| Star (r : regex).

Definition Plus (r : regex) : regex := Cat r (Star r).
Definition Chr (c : ascii) : regex := Class (λ x, bool_decide (x = c)).

Fixpoint nullable (r : regex) : bool :=
  match r with
  | Void => false
  | Eps => true
  | Class _ => false
  | Cat r1 r2 => nullable r1 && nullable r2
  | Alt r1 r2 => nullable r1 || nullable r2
  | Star _ => true
  end.

Fixpoint deriv (c : ascii) (r : regex) : regex :=
  match r with
  | Void => Void
  | Eps => Void
  | Class p => if p c then Eps else Void
  | Cat r1 r2 =>
      if nullable r1
      then Alt (Cat (deriv c r1) r2) (deriv c r2)
      else Cat (deriv c r1) r2
  | Alt r1 r2 => Alt (deriv c r1) (deriv c r2)
  | Star r1 => Cat (deriv c r1) (Star r1)
  end.

Definition fullmatch (r : regex) (l : list ascii) : bool :=
  nullable (foldl (λ r c, deriv c r) r l).

Definition newline : ascii := ascii_of_N 10.

(** [re.match('^' r '$', s)] succeeds or not: the dollar sign matches at
    the end and just before a final newline. *)
Definition match_anchored (r : regex) (s : string) : bool :=
  fullmatch r (chars s)
  || match rev (chars s) with
     | c :: l => bool_decide (c = newline) && fullmatch r (rev l)
     | [] => false
     end.

Definition ascii_letter (c : ascii) : bool :=
  in_range 97 122 c || in_range 65 90 c.

(** *** [datetime.strptime] for the directives [%Y], [%m] and [%d] *)

Inductive directive :=
| DY
| Dm
| Dd
| DChar (c : ascii).

(** The alternatives of a directive as [_strptime] writes them, each a
    list of character classes, in the order they are tried. *)
Definition one_to_nine : ascii → bool := in_range 49 57.
Definition is_char (c : ascii) : ascii → bool := λ x, bool_decide (x = c).

Definition alternatives (d : directive) : list (list (ascii → bool)) :=
  match d with
  | DY => [[is_decimal; is_decimal; is_decimal; is_decimal]]
  | Dm => [[is_char "1"; in_range 48 50]; [is_char "0"; one_to_nine];
           [one_to_nine]]
  | Dd => [[is_char "3"; in_range 48 49]; [in_range 49 50; is_decimal];
           [is_char "0"; one_to_nine]; [one_to_nine];
           [is_char " "; one_to_nine]]
  | DChar c => [[is_char c]]
  end.

Fixpoint match_classes (ps : list (ascii → bool)) (l : list ascii)
  : option (list ascii * list ascii) :=
  match ps, l with
  | [], _ => Some ([], l)
  | p :: ps', c :: l' =>
      if p c
      then match match_classes ps' l' with
           | Some (m, r) => Some (c :: m, r)
           | None => None
           end
      else None
  | _ :: _, [] => None
  end.

Record ymd := { year : Z; month : Z; day : Z }.

(** [int] of the matched group ([int] skips the blank of [" 5"]). *)
Definition group_val (m : list ascii) : Z :=
  digits_val (filter (λ c, is_decimal c = true) m).

Definition store (d : directive) (m : list ascii) (t : ymd) : ymd :=
  match d with
  | DY => {| year := group_val m; month := month t; day := day t |}
  | Dm => {| year := year t; month := group_val m; day := day t |}
  | Dd => {| year := year t; month := month t; day := group_val m |}
  | DChar _ => t
  end.

(** Every way the format matches a prefix of the input, the way a
    backtracking matcher finds them, first one first. *)
Fixpoint matches (fmt : list directive) (t : ymd) (l : list ascii)
  : list (ymd * list ascii) :=
  match fmt with
  | [] => [(t, l)]
  | d :: fmt' =>
      concat (map (λ ps,
                match match_classes ps l with
                | Some (m, r) => matches fmt' (store d m t) r
                | None => []
                end) (alternatives d))
  end.

Definition is_leap (y : Z) : bool :=
  (y mod 4 =? 0) && (negb (y mod 100 =? 0) || (y mod 400 =? 0)).

Definition days_in_month (y m : Z) : Z :=
  if m =? 2 then (if is_leap y then 29 else 28)
  else if (m =? 4) || (m =? 6) || (m =? 9) || (m =? 11) then 30
  else 31.

(** The check that building the date performs. *)
Definition valid_date (t : ymd) : bool :=
  (1 <=? year t) && (year t <=? 9999)
  && (1 <=? month t) && (month t <=? 12)
  && (1 <=? day t) && (day t <=? days_in_month (year t) (month t)).

Definition strptime (date_string : string) (fmt : list directive)
  : result ymd :=
  match matches fmt {| year := 1900; month := 1; day := 1 |}
          (chars date_string) with
  | (t, []) :: _ => if valid_date t then Ok t else Raise ValueError
  | _ => Raise ValueError
  end.

End Py.

Import Py.

#[global] Instance result_ret : MRet result := λ A a, Ok a.
#[global] Instance result_bind : MBind result := λ A B k c, bind c k.

(** [for idx, value in enumerate(l, start)]: the body changes a state and
    may raise; the loop stops at the first raise, the state being what it
    then is. *)
Fixpoint for_enumerate {S A} (body : S → nat → A → S * result ())
    (s : S) (start : nat) (l : list A) : S * result () :=
  match l with
  | [] => (s, Ok ())
  | value :: l' =>
      match body s start value with
      | (s', Ok _) => for_enumerate body s' (Datatypes.S start) l'
      | (s', Raise e) => (s', Raise e)
      end
  end.

(** ** The data frame *)

Record DataFrame := {
  index_len : nat;
  columns : list (string * list cell)
}.

(** [len(df)] *)
Definition len (df : DataFrame) : nat := index_len df.

Fixpoint lookup_column (col : string) (cs : list (string * list cell))
  : option (list cell) :=
  match cs with
  | [] => None
  | (name, values) :: cs' =>
      if decide (name = col) then Some values else lookup_column col cs'
  end.

(** [df[col]] *)
Definition getitem (df : DataFrame) (col : string) : result (list cell) :=
  match lookup_column col (columns df) with
  | Some values => Ok values
  | None => Raise (KeyError col)
  end.

(** Every column of a data frame is as long as its index, and no name is
    used twice. *)
Definition df_wf (df : DataFrame) : Prop :=
  Forall (λ c, length c.2 = index_len df) (columns df)
  ∧ NoDup (columns df).*1.

(** ** [validation.py] *)

Module Validation.

Record Failure := {
  row : nat;
  column : string;
  issues : list fstring
}.

Record DataValidator := {
  df : DataFrame;
  failures : list Failure;
  passed_rows : gset nat
}.

(** A call of a method: the validator as the call leaves it, and whether
    the call returned or raised. *)
Definition outcome : Type := DataValidator * result ().

(** One call after another: a raise ends the sequence. *)
Definition and_then (o : outcome) (m : DataValidator → outcome) : outcome :=
  match o with
  | (self, Ok _) => m self
  | (self, Raise e) => (self, Raise e)
  end.

#[local] Notation "o >>> m" := (and_then o m)
  (at level 50, left associativity).

(** [DataValidator(df)] *)
Definition init (df : DataFrame) : DataValidator :=
  {| df := df; failures := []; passed_rows := set_seq 0 (len df) |}.

Definition add_failure (self : DataValidator) (row_idx : nat)
    (column : string) (issues : list fstring) : DataValidator :=
  {| df := df self;
     failures := failures self
                 ++ [{| row := row_idx + 2; column := column;
                        issues := issues |}];
     passed_rows := if decide (row_idx ∈ passed_rows self)
                    then passed_rows self ∖ {[row_idx]}
                    else passed_rows self |}.

(** [if issues: self.add_failure(idx, column, issues)] *)
Definition report (self : DataValidator) (idx : nat) (column : string)
    (issues : list fstring) : DataValidator :=
  match issues with
  | [] => self
  | _ :: _ => add_failure self idx column issues
  end.

Definition empty_issue : fstring := [Lit "Empty (should be non-empty)"].

(** [pd.isna(value) or str(value).strip() == ''] *)
Definition blank (value : cell) : bool :=
  isna value || bool_decide (strip (str value) = EmptyString).

(** *** customer_id *)

Definition customer_id_checks (value : cell) : result (list fstring) :=
  if isna value then Ok [empty_issue]
  else
    try_except
      (val ← int value;
       Ok (if val <=? 0
           then [[Lit (str value ++ " (should be positive)")]]
           else []))
      (Ok [[Lit (str value ++ " (should be integer)")]]).

Definition customer_id_body (st : DataValidator * gset cell) (idx : nat)
    (value : cell) : (DataValidator * gset cell) * result () :=
  let '(self, ids_seen) := st in
  match customer_id_checks value with
  | Raise e => (st, Raise e)
  | Ok issues =>
      let '(issues, ids_seen) :=
        if notna value then
          if decide (value ∈ ids_seen)
          then ((issues ++ [[Lit (str value ++ " (duplicate ID)")]])%list,
                ids_seen)
          else (issues, {[value]} ∪ ids_seen)
        else (issues, ids_seen) in
      ((report self idx "customer_id" issues, ids_seen), Ok ())
  end.

(** The loop of [validate_customer_id], with the set [ids_seen] as the
    loop leaves it. *)
Definition customer_id_loop (self : DataValidator)
  : (DataValidator * gset cell) * result () :=
  match getitem (df self) "customer_id" with
  | Raise e => ((self, ∅), Raise e)
  | Ok values => for_enumerate customer_id_body (self, ∅) 0 values
  end.

Definition validate_customer_id (self : DataValidator) : outcome :=
  let '((self, _), r) := customer_id_loop self in (self, r).

(** *** The rules that look at one value *)

(** The loop that every pass but the identifier pass is made of:
    [for idx, value in enumerate(self.df[column])], the issues of the
    value, and [add_failure] when there are any. *)
Definition validate_column (column : string)
    (rule : cell → result (list fstring)) (self : DataValidator) : outcome :=
  match getitem (df self) column with
  | Raise e => (self, Raise e)
  | Ok values =>
      for_enumerate
        (λ self idx value,
           match rule value with
           | Raise e => (self, Raise e)
           | Ok issues => (report self idx column issues, Ok ())
           end)
        self 0 values
  end.

(** [^[a-zA-Z\s\-]+$] *)
Definition name_pattern : regex :=
  Plus (Class (λ c, ascii_letter c || isspace c || is_char "-" c)).

Definition name_issues (value : cell) : result (list fstring) :=
  if blank value then Ok [empty_issue]
  else
    let name := strip (str value) in
    Ok ((if (String.length name <? 2)%nat
         then [[Lit ("'" ++ name ++ "' (too short, min 2 chars)")]]
         else if (50 <? String.length name)%nat
         then [[Lit ("'" ++ name ++ "' (too long, max 50 chars)")]]
         else [])
        ++ (if negb (match_anchored name_pattern name)
            then [[Lit ("'" ++ name ++ "' (should be alphabetic)")]]
            else []))%list.

Definition validate_name (column : string) :=
  validate_column column name_issues.

(** [^[a-zA-Z0-9._%+-]+@[a-zA-Z0-9.-]+\.[a-zA-Z]{2,}$] *)
Definition email_pattern : regex :=
  let alnum c := ascii_letter c || is_decimal c in
  let local c := alnum c || is_char "." c || is_char "_" c
                 || is_char "%" c || is_char "+" c || is_char "-" c in
  let domain c := alnum c || is_char "." c || is_char "-" c in
  Cat (Plus (Class local))
    (Cat (Chr "@")
       (Cat (Plus (Class domain))
          (Cat (Chr ".")
             (Cat (Class ascii_letter)
                (Cat (Class ascii_letter) (Star (Class ascii_letter))))))).

Definition email_issues (value : cell) : result (list fstring) :=
  if blank value then Ok [empty_issue]
  else
    let email := strip (str value) in
    Ok (if negb (match_anchored email_pattern email)
        then [[Lit ("'" ++ email ++ "' (invalid email format)")]]
        else []).

Definition validate_email := validate_column "email" email_issues.

Definition phone_issues (value : cell) : result (list fstring) :=
  if blank value then Ok [empty_issue]
  else
    let phone := strip (str value) in
    let digits := filter (λ c, is_decimal c = true) (chars phone) in
    Ok (if bool_decide (length digits ≠ 10%nat)
        then [[Lit ("'" ++ phone ++ "' (should have 10 digits, found "
                    ++ str_of_Z (Z.of_nat (length digits)) ++ ")")]]
        else []).

Definition validate_phone := validate_column "phone" phone_issues.

(** [['%Y-%m-%d', '%Y/%m/%d', '%m/%d/%Y']] *)
Definition formats : list (list directive) :=
  [ [DY; DChar "-"; Dm; DChar "-"; Dd];
    [DY; DChar "/"; Dm; DChar "/"; Dd];
    [Dm; DChar "/"; Dd; DChar "/"; DY] ].

(** The loop over the formats: [parsed] at its end. *)
Fixpoint try_formats (date_str : string) (fmts : list (list directive))
  : result bool :=
  match fmts with
  | [] => Ok false
  | fmt :: fmts' =>
      try_except (_ ← strptime date_str fmt; Ok true)
                 (try_formats date_str fmts')
  end.

Definition date_issues (value : cell) : result (list fstring) :=
  if blank value then Ok [empty_issue]
  else
    let date_str := strip (str value) in
    if decide (lower date_str = "invalid_date")
    then Ok [[Lit "'invalid_date' (invalid date value)"]]
    else
      parsed ← try_formats date_str formats;
      Ok (if negb parsed
          then [[Lit ("'" ++ date_str ++ "' (unrecognized date format)")]]
          else []).

Definition validate_date (column : string) :=
  validate_column column date_issues.

Definition address_issues (value : cell) : result (list fstring) :=
  if blank value then Ok [empty_issue]
  else
    let address := strip (str value) in
    Ok (if (String.length address <? 10)%nat
        then [[Lit ("'" ++ address ++ "' (too short, min 10 chars)")]]
        else if (200 <? String.length address)%nat
        then [[Lit ("'" ++ address ++ "' (too long, max 200 chars)")]]
        else []).

Definition validate_address := validate_column "address" address_issues.

Definition income_issues (value : cell) : result (list fstring) :=
  if isna value then Ok [empty_issue]
  else
    try_except
      (income_val ← float value;
       Ok (if float_lt income_val (float_of_Z 0)
           then [[Flt income_val; Lit " (should be non-negative)"]]
           else if float_lt (float_of_Z 10000000) income_val
           then [[Flt income_val; Lit " (exceeds $10M limit)"]]
           else []))
      (Ok [[Lit ("'" ++ str value ++ "' (should be numeric)")]]).

Definition validate_income := validate_column "income" income_issues.

(** The body of the loop of [validate_income] for a value that is a
    Python [int] of any size. *)
Definition income_issues_of_int (z : Z) : result (list fstring) :=
  try_except
    (income_val ← float_of_int z;
     Ok (if float_lt income_val (float_of_Z 0)
         then [[Flt income_val; Lit " (should be non-negative)"]]
         else if float_lt (float_of_Z 10000000) income_val
         then [[Flt income_val; Lit " (exceeds $10M limit)"]]
         else []))
    (Ok [[Lit ("'" ++ str_of_Z z ++ "' (should be numeric)")]]).

Definition valid_statuses : list string := ["active"; "inactive"; "suspended"].

Definition account_status_issues (value : cell) : result (list fstring) :=
  if blank value
  then Ok [[Lit "Empty (should be one of: active, inactive, suspended)"]]
  else
    let status := lower (strip (str value)) in
    Ok (if bool_decide (status ∉ valid_statuses)
        then [[Lit ("'" ++ str value
                    ++ "' (invalid value, should be: active, inactive, suspended)")]]
        else []).

Definition validate_account_status :=
  validate_column "account_status" account_status_issues.

Definition run_all_validations (self : DataValidator) : outcome :=
  validate_customer_id self
  >>> validate_name "first_name"
  >>> validate_name "last_name"
  >>> validate_email
  >>> validate_phone
  >>> validate_date "date_of_birth"
  >>> validate_address
  >>> validate_income
  >>> validate_account_status
  >>> validate_date "created_date".

(** [get_failures_by_column()[column]], the empty list for a column that
    is not a key. *)
Definition get_failures_by_column (self : DataValidator) (column : string)
  : list Failure :=
  filter (λ f, Validation.column f = column) (failures self).

Definition column_order : list string :=
  ["customer_id"; "first_name"; "last_name"; "email"; "phone";
   "date_of_birth"; "address"; "income"; "account_status"; "created_date"].

(** [str(n)] for a count *)
Definition str_of_nat (n : nat) : string := str_of_Z (Z.of_nat n).

(** The lines of the report, which the code joins with newlines. *)
Definition generate_validation_report (validator : DataValidator)
    (df : DataFrame) : list fstring :=
  let total_rows := len df in
  let passed_count := size (passed_rows validator) in
  let failed_count := (Z.of_nat total_rows - Z.of_nat passed_count)%Z in
  let failures_by_column := get_failures_by_column validator in
  ([ [Lit "VALIDATION RESULTS"];
     [Lit "=================================================="];
     [Lit EmptyString];
     [Lit ("PASS: " ++ str_of_nat passed_count ++ " rows passed all checks")];
     [Lit ("FAIL: " ++ str_of_Z failed_count ++ " rows failed")];
     [Lit EmptyString];
     [Lit "FAILURES BY COLUMN:"];
     [Lit "------------------------------"];
     [Lit EmptyString] ]
   ++ (column_order ≫= λ column,
         match failures_by_column column with
         | [] => []
         | fl =>
             [[Lit (column ++ ":")]]
             ++ (fl ≫= λ failure,
                   issues failure ≫= λ issue,
                     [Lit ("  - Row " ++ str_of_nat (row failure) ++ ": ")
                      :: issue])
             ++ [[Lit EmptyString]]
         end)
   ++ [ [Lit "VALIDATION SUMMARY:"];
        [Lit "------------------------------"] ]
   ++ (column_order ≫= λ column,
         [[Lit ("- " ++ column ++ ": "
                ++ str_of_Z (Z.of_nat total_rows
                             - Z.of_nat (length (failures_by_column column)))
                ++ "/" ++ str_of_nat total_rows ++ " valid")]])
   ++ [ [Lit EmptyString];
        [Lit "=================================================="];
        [Lit "Report generated: Part 3 Complete"] ])%list.

(** [main], from the loaded data frame to the report; the report is not
    written to a file here. *)
Definition main (df : DataFrame) : result (list fstring) :=
  let validator := init df in
  match run_all_validations validator with
  | (validator, Ok _) => Ok (generate_validation_report validator df)
  | (_, Raise e) => Raise e
  end.

End Validation.

(** ** [data_quality.py] *)

Module DataQuality.

(** [for idx, value in enumerate(l, start)] with a body that appends the
    lines [body idx value] to a list. *)
Fixpoint collect {A B} (body : nat → A → list B) (start : nat)
    (l : list A) : list B :=
  match l with
  | [] => []
  | value :: l' => (body start value ++ collect body (S start) l')%list
  end.

(** [f"Row {idx+2}"] *)
Definition row_label (idx : nat) : string :=
  "Row " ++ str_of_Z (Z.of_nat (idx + 2)).

(** [series.notna().sum()] and [(series == '').sum()] *)
Definition count_notna (values : list cell) : Z :=
  Z.of_nat (length (filter (λ v, notna v = true) values)).
Definition count_empty (values : list cell) : Z :=
  Z.of_nat (length (filter (λ v, v = VStr EmptyString) values)).

(** The ['missing'] entry of [analyze_completeness], column by column in
    the order of [df.columns]; the ['percentage'] entry, a float that is
    only printed, is left out. *)
Definition analyze_completeness (df : DataFrame) : list (string * Z) :=
  let total_rows := Z.of_nat (len df) in
  map (λ c,
         let non_null_count := count_notna c.2 in
         let empty_strings := count_empty c.2 in
         let valid_count := non_null_count - empty_strings in
         (c.1, total_rows - valid_count))
      (columns df).

Record format_issues := {
  phone_formats : gset string;
  date_of_birth_issues : list fstring;
  created_date_issues : list fstring
}.

(** [phone.isdigit()] *)
Definition str_isdigit (s : string) : bool :=
  match chars s with
  | [] => false
  | l => forallb isdigit l
  end.

Definition phone_format (phone : string) : string :=
  if contains "555-" phone && bool_decide (count_char "-" phone = 2%nat)
  then "XXX-XXX-XXXX"
  else if contains "(" phone && contains ")" phone then "(XXX) XXX-XXXX"
  else if contains "." phone then "XXX.XXX.XXXX"
  else if str_isdigit phone && bool_decide (String.length phone = 10%nat)
  then "XXXXXXXXXX"
  else "OTHER".

(** [pd.notna(date_val) and date_val != ''] *)
Definition present (v : cell) : bool :=
  notna v && bool_decide (v ≠ VStr EmptyString).

Definition dob_format_issue (idx : nat) (date_val : cell) : list fstring :=
  if present date_val then
    let date_str := strip (str date_val) in
    if decide (date_str = "invalid_date")
    then [[Lit (row_label idx ++ ": invalid_date")]]
    else if contains "/" date_str
    then [[Lit (row_label idx ++ ": " ++ date_str ++ " (YYYY/MM/DD format)")]]
    else []
  else [].

Definition first_isdigit (s : string) : bool :=
  match chars s with
  | c :: _ => isdigit c
  | [] => false
  end.

Definition created_format_issue (idx : nat) (date_val : cell)
  : list fstring :=
  if present date_val then
    let date_str := strip (str date_val) in
    if decide (date_str = "invalid_date")
    then [[Lit (row_label idx ++ ": invalid_date")]]
    else if contains "/" date_str && first_isdigit date_str
    then [[Lit (row_label idx ++ ": " ++ date_str ++ " (MM/DD/YYYY format)")]]
    else []
  else [].

Definition analyze_format_issues (df : DataFrame) : result format_issues :=
  phones ← getitem df "phone";
  let formats_found : gset string :=
    list_to_set (map (λ v, phone_format (str v)) phones) in
  dobs ← getitem df "date_of_birth";
  let dob_issues := collect dob_format_issue 0 dobs in
  createds ← getitem df "created_date";
  let created_date_issues := collect created_format_issue 0 createds in
  Ok {| phone_formats := formats_found;
        date_of_birth_issues := dob_issues;
        created_date_issues := created_date_issues |}.

Record uniqueness := {
  total : Z;
  unique : Z;
  duplicates : Z
}.

(** [series.nunique()]: the number of distinct values that are not NaN. *)
Definition nunique (values : list cell) : Z :=
  Z.of_nat (size (list_to_set (filter (λ v, notna v = true) values)
                  : gset cell)).

Definition analyze_uniqueness (df : DataFrame) : result uniqueness :=
  ids ← getitem df "customer_id";
  let total_ids := Z.of_nat (length ids) in
  let unique_ids := nunique ids in
  Ok {| total := total_ids; unique := unique_ids;
        duplicates := total_ids - unique_ids |}.

Definition invalid_date_issue (column : string) (idx : nat)
    (date_val : cell) : list fstring :=
  if notna date_val && bool_decide (strip (str date_val) = "invalid_date")
  then [[Lit (row_label idx ++ ": " ++ column ++ " = 'invalid_date'")]]
  else [].

Definition negative_income_issue (idx : nat) (income : cell)
  : list fstring :=
  if notna income then
    match try_except_all
            (income_val ← float income;
             Ok (if float_lt income_val (float_of_Z 0)
                 then [[Lit (row_label idx ++ ": income = ");
                        Flt income_val; Lit " (negative)"]]
                 else []))
            (Ok []) with
    | Ok l => l
    | Raise _ => []
    end
  else [].

Definition age_issue (current_year : Z) (idx : nat) (date_val : cell)
  : list fstring :=
  if notna date_val
     && bool_decide (strip (str date_val) ∉ [EmptyString; "invalid_date"])
  then
    match try_except_all
            (if contains "-" (str date_val) then
               year ← int_of_str (split_first "-" (str date_val));
               let age := current_year - year in
               Ok (if 150 <? age
                   then [[Lit (row_label idx ++ ": age = " ++ str_of_Z age
                               ++ " (unrealistic)")]]
                   else [])
             else Ok [])
            (Ok []) with
    | Ok l => l
    | Raise _ => []
    end
  else [].

(** [current_year] is what [datetime.now().year] returns. *)
Definition analyze_invalid_values (current_year : Z) (df : DataFrame)
  : result (list fstring) :=
  dobs ← getitem df "date_of_birth";
  let l1 := collect (invalid_date_issue "date_of_birth") 0 dobs in
  createds ← getitem df "created_date";
  let l2 := collect (invalid_date_issue "created_date") 0 createds in
  incomes ← getitem df "income";
  let l3 := collect negative_income_issue 0 incomes in
  dobs' ← getitem df "date_of_birth";
  let l4 := collect (age_issue current_year) 0 dobs' in
  Ok (l1 ++ l2 ++ l3 ++ l4)%list.

Definition valid_statuses : list string := ["active"; "inactive"; "suspended"].

Definition categorical_issue (idx : nat) (status : cell) : list fstring :=
  if notna status && bool_decide (strip (str status) ≠ EmptyString) then
    let status_clean := strip (str status) in
    if bool_decide (status_clean ∉ valid_statuses)
    then [[Lit (row_label idx ++ ": '" ++ str status ++ "' (invalid value)")]]
    else []
  else if isna status || bool_decide (strip (str status) = EmptyString)
  then [[Lit (row_label idx ++ ": Empty (missing value)")]]
  else [].

Definition analyze_categorical_validity (df : DataFrame)
  : result (list fstring) :=
  statuses ← getitem df "account_status";
  Ok (collect categorical_issue 0 statuses).

Record severity := {
  critical : Z;
  high : Z;
  medium : Z
}.

(** One pass of the loop over [completeness.items()]. *)
Definition count_missing (t : severity) (entry : string * Z) : severity :=
  let '(col, missing) := entry in
  if 0 <? missing then
    if bool_decide (col ∈ ["first_name"; "last_name"; "email"; "address"])
    then {| critical := critical t; high := high t;
            medium := medium t + missing |}
    else if bool_decide (col ∈ ["customer_id"])
    then {| critical := critical t + missing; high := high t;
            medium := medium t |}
    else {| critical := critical t; high := high t;
            medium := medium t + missing |}
  else t.

Definition nonempty {A} (l : list A) : bool :=
  match l with [] => false | _ => true end.

Definition count_of {A} (l : list A) : Z := Z.of_nat (length l).

(** The three counters that [generate_report] prints under SEVERITY. *)
Definition generate_report_severity (completeness : list (string * Z))
    (fi : format_issues) (u : uniqueness) (invalid_values : list fstring)
    (categorical_issues : list fstring) : severity :=
  let critical := 0 in
  let high := 0 in
  let medium := 0 in
  let high :=
    if nonempty (date_of_birth_issues fi) || nonempty (created_date_issues fi)
    then high + (count_of (date_of_birth_issues fi)
                 + count_of (created_date_issues fi))
    else high in
  let high :=
    if nonempty invalid_values then high + count_of invalid_values
    else high in
  let medium :=
    if nonempty categorical_issues then medium + count_of categorical_issues
    else medium in
  let critical :=
    if 0 <? duplicates u then critical + duplicates u else critical in
  foldl count_missing
    {| critical := critical; high := high; medium := medium |}
    completeness.

(** The analyses in the order [main] runs them, up to the counters;
    [analyze_data_types], which only reads the column types and feeds no
    counter, is left out. *)
Definition main_severity (current_year : Z) (df : DataFrame)
  : result severity :=
  let completeness := analyze_completeness df in
  format_issues ← analyze_format_issues df;
  uniqueness ← analyze_uniqueness df;
  invalid_values ← analyze_invalid_values current_year df;
  categorical_issues ← analyze_categorical_validity df;
  Ok (generate_report_severity completeness format_issues uniqueness
        invalid_values categorical_issues).

End DataQuality.

(** * The vocabulary of the properties *)

Import Validation.
Import DataQuality.

(** The function returns for every argument. *)
Definition never_raises {A B} (f : A → result B) : Prop :=
  ∀ a, ∃ b, f a = Ok b.

(** What a rule reports for a value, as a list. *)
Definition issues_of (rule : cell → result (list fstring)) (v : cell)
  : list fstring :=
  match rule v with
  | Ok l => l
  | Raise _ => []
  end.

(** The record positions that the failures [fl] refer to. *)
Definition positions (fl : list Failure) : gset nat :=
  list_to_set ((λ f, (row f - 2)%nat) <$> fl).

(** The validator after the failures [fl] have been added one by one. *)
Definition extend (self : DataValidator) (fl : list Failure) : DataValidator :=
  {| df := df self;
     failures := failures self ++ fl;
     passed_rows := passed_rows self ∖ positions fl |}.

(** The failure of a record and a field, if the rules report any issue. *)
Definition failure_at (column : string) (idx : nat) (issues : list fstring)
  : list Failure :=
  match issues with
  | [] => []
  | _ :: _ => [{| row := idx + 2; column := column; issues := issues |}]
  end.

(** The failures that a pass over the values of a column creates, in the
    order of the records, [f] giving the issues of a value. *)
Fixpoint flagged (column : string) (f : cell → list fstring) (start : nat)
    (values : list cell) : list Failure :=
  match values with
  | [] => []
  | v :: values' =>
      failure_at column start (f v) ++ flagged column f (S start) values'
  end.

(** The issues of an identifier, given the identifiers seen before it. *)
Definition customer_id_issues (seen : gset cell) (value : cell)
  : list fstring :=
  (issues_of customer_id_checks value
   ++ if notna value && bool_decide (value ∈ seen)
      then [[Lit (str value ++ " (duplicate ID)")]]
      else [])%list.

(** The set after one more identifier. *)
Definition see (seen : gset cell) (value : cell) : gset cell :=
  if notna value then {[value]} ∪ seen else seen.

(** The failures that the identifier pass creates. *)
Fixpoint flagged_ids (seen : gset cell) (start : nat) (values : list cell)
  : list Failure :=
  match values with
  | [] => []
  | v :: values' =>
      failure_at "customer_id" start (customer_id_issues seen v)
      ++ flagged_ids (see seen v) (S start) values'
  end.

(** The columns in the order [run_all_validations] reads them. *)
Definition required_columns : list string :=
  ["customer_id"; "first_name"; "last_name"; "email"; "phone";
   "date_of_birth"; "address"; "income"; "account_status"; "created_date"].

(** The passes that follow the identifier pass, with their rules. *)
Definition value_rules : list (string * (cell → result (list fstring))) :=
  [("first_name", name_issues); ("last_name", name_issues);
   ("email", email_issues); ("phone", phone_issues);
   ("date_of_birth", date_issues); ("address", address_issues);
   ("income", income_issues); ("account_status", account_status_issues);
   ("created_date", date_issues)].

(** The values of a column, none for a column that is absent. *)
Definition column_values (df : DataFrame) (column : string) : list cell :=
  default [] (lookup_column column (columns df)).

(** The failures of the pass of one column. *)
Definition rule_failures (df : DataFrame)
    (cr : string * (cell → result (list fstring))) : list Failure :=
  flagged cr.1 (issues_of cr.2) 0 (column_values df cr.1).

(** The failures of a whole run, pass after pass. *)
Definition all_failures (df : DataFrame) : list Failure :=
  flagged_ids ∅ 0 (column_values df "customer_id")
  ++ (value_rules ≫= rule_failures df).

(** The passes of a run in their order, each with the column it reads and
    the failures it creates. *)
Definition passes (df : DataFrame) : list (string * list Failure) :=
  ("customer_id", flagged_ids ∅ 0 (column_values df "customer_id"))
  :: ((λ cr, (cr.1, rule_failures df cr)) <$> value_rules).

(** The failures of the passes that come before the first one whose column
    is absent. *)
Fixpoint failures_until (ps : list (string * list Failure)) (df : DataFrame)
  : list Failure :=
  match ps with
  | [] => []
  | (c, fl) :: ps' =>
      match lookup_column c (columns df) with
      | None => []
      | Some _ => fl ++ failures_until ps' df
      end
  end.

Definition failures_of_run (df : DataFrame) : list Failure :=
  failures_until (passes df) df.

(** The first of the columns [cs] that the data frame does not have. *)
Fixpoint first_missing_in (cs : list string) (df : DataFrame)
  : option string :=
  match cs with
  | [] => None
  | c :: cs' =>
      match lookup_column c (columns df) with
      | None => Some c
      | Some _ => first_missing_in cs' df
      end
  end.

Definition first_missing : DataFrame → option string :=
  first_missing_in required_columns.

(** The data frame has every column that a pass reads. *)
Definition has_required_columns (df : DataFrame) : Prop :=
  Forall (λ c, is_Some (lookup_column c (columns df))) required_columns.

(** The issues that the identifier at position [k] gets. *)
Definition id_issues_at (values : list cell) (k : nat) (v : cell)
  : list fstring :=
  (issues_of customer_id_checks v
   ++ if notna v && bool_decide (v ∈ take k values)
      then [[Lit (str v ++ " (duplicate ID)")]]
      else [])%list.

(** The identifier parses as a positive integer. *)
Definition well_formed_id (v : cell) : Prop := ∃ z, int v = Ok z ∧ 0 < z.

(** The malformed identifier [abc], twice. *)
Definition malformed_twice : DataFrame :=
  {| index_len := 2;
     columns := [("customer_id", [VStr "abc"; VStr "abc"])] |}.

(** The record and the field of a failure. *)
Definition key (f : Failure) : nat * string := (row f, column f).

(** The rule of a column in a table of rules. *)
Fixpoint rule_in (rules : list (string * (cell → result (list fstring))))
    (column : string) : option (cell → result (list fstring)) :=
  match rules with
  | [] => None
  | (c, r) :: rules' =>
      if decide (c = column) then Some r else rule_in rules' column
  end.

(** The issues of the value at position [idx] of a column, in the order
    the rules of the column report them; nothing for a column without
    rules. *)
Definition expected_issues (df : DataFrame) (column : string) (idx : nat)
  : list fstring :=
  match column_values df column !! idx with
  | None => []
  | Some v =>
      if decide (column = "customer_id")
      then id_issues_at (column_values df column) idx v
      else match rule_in value_rules column with
           | Some r => issues_of r v
           | None => []
           end
  end.

(** The issue of a date that is the text [invalid_date]. *)
Definition sentinel_issue : fstring :=
  [Lit "'invalid_date' (invalid date value)"].


(** A data frame with the identifier column alone. *)
Definition ids_only : DataFrame :=
  {| index_len := 2; columns := [("customer_id", [VInt 7; VInt 7])] |}.

(** The three tiers of the tally and the kinds of defect it counts. *)
Inductive tier := Critical | High | Medium.

#[global] Instance tier_eq_dec : EqDecision tier.
Proof. solve_decision. Defined.

Inductive defect :=
| DuplicateId
| MissingValue (col : string)
| DateFormat
| InvalidValue
| CategoricalValidity.

(** The tier that the policy of the specification gives a defect. *)
Definition tier_of (d : defect) : tier :=
  match d with
  | DuplicateId => Critical
  | MissingValue col =>
      if decide (col = "customer_id") then Critical else Medium
  | DateFormat => High
  | InvalidValue => High
  | CategoricalValidity => Medium
  end.

(** The counter of a tier in a tally. *)
Definition counter (T : tier) (t : severity) : Z :=
  match T with
  | Critical => critical t
  | High => high t
  | Medium => medium t
  end.

(** What [n] defects of kind [d] add to the counter of tier [T]. *)
Definition share (T : tier) (d : defect) (n : Z) : Z :=
  if decide (tier_of d = T) then n else 0.

(** What the missing values of all the columns add to the counter of
    tier [T]; a count below zero adds nothing. *)
Definition missing_share (T : tier) (completeness : list (string * Z)) : Z :=
  foldr (λ entry acc, share T (MissingValue entry.1) (Z.max 0 entry.2) + acc)
        0 completeness.

(** The data frame that differs from [df] in the value of one record for
    one column. *)
Definition set_cell (df : DataFrame) (column : string) (idx : nat)
    (v : cell) : DataFrame :=
  {| index_len := index_len df;
     columns := map (λ c, if decide (c.1 = column)
                          then (c.1, <[idx := v]> c.2) else c)
                    (columns df) |}.

(** The ['missing'] entry of a column in a frame of [n] records. *)
Definition missing_of (n : nat) (values : list cell) : Z :=
  Z.of_nat n - (count_notna values - count_empty values).

(** What a value adds to the missing count of its column. *)
Definition vacancy (v : cell) : Z := if present v then 0 else 1.


(** A small data frame with defects of several kinds. *)
Definition sample : DataFrame :=
  {| index_len := 3;
     columns :=
       [ ("customer_id", [VInt 1; VInt 2; VInt 2]);
         ("first_name", [VStr "Ann"; VStr "Bob"; VStr "C"]);
         ("last_name", [VStr "Lee"; VStr "Ray"; VStr "Poe"]);
         ("email", [VStr "ann@example.com"; VStr "bob@example";
                    VStr "cy@example.org"]);
         ("phone", [VStr "(555) 123-4567"; VStr "555-123-456";
                    VStr "5551234567"]);
         ("date_of_birth", [VStr "1990/01/15"; VStr "invalid_date";
                            VStr "1985-07-30"]);
         ("address", [VStr "12 Main Street"; VStr "34 Oak Avenue";
                      VStr "56 Pine Road"]);
         ("income", [VInt 50000; VStr "abc"; VInt 72000]);
         ("account_status", [VStr "Active"; VStr "inactive"; VStr "closed"]);
         ("created_date", [VStr "2020-01-01"; VStr "01/02/2021";
                           VStr "2022-03-04"]) ] |}.

(** The identifiers 5, 5, 5. *)
Definition three_fives : DataFrame :=
  {| index_len := 3;
     columns := [("customer_id", [VInt 5; VInt 5; VInt 5])] |}.

(** What the run and the tally of [main] give for [sample] in 2026. *)
Definition sample_run : DataValidator :=
  extend (init sample) (all_failures sample).

Definition sample_tally : severity :=
  Eval vm_compute in
    match main_severity 2026 sample with
    | Ok t => t
    | Raise _ => {| critical := 0; high := 0; medium := 0 |}
    end.

(** * The other modules *)

(** ** [cleaning.py] *)

Module Cleaning.

(** [re.sub(r'\D', '', s)] *)
Definition digits_of (s : string) : list ascii :=
  filter (λ c, is_decimal c = true) (chars s).

(** [f"{d[:3]}-{d[3:6]}-{d[6:]}"] *)
Definition dashed (d : list ascii) : string :=
  text (take 3 d ++ "-"%char :: take 3 (drop 3 d) ++ "-"%char :: drop 6 d).

Definition normalize_phone (phone : cell) : cell :=
  if isna phone || bool_decide (phone = VStr EmptyString) then phone
  else
    let phone_str := strip (str phone) in
    let digits := digits_of phone_str in
    if bool_decide (length digits = 10%nat) then VStr (dashed digits)
    else if bool_decide (length digits = 11%nat)
            && bool_decide (head digits = Some "1"%char)
    then VStr (dashed (drop 1 digits))
    else VStr phone_str.

End Cleaning.

(** ** [pii_detection.py] *)

Module PiiDetection.

(** An entry of the list that a detector returns. *)
Record finding := {
  row : nat;
  value : string
}.

(** [^[a-zA-Z0-9._%+-]+@[a-zA-Z0-9.-]+\.[a-zA-Z]{2,}$] *)
Definition email_pattern : regex :=
  let alnum c := ascii_letter c || is_decimal c in
  let local c := alnum c || is_char "." c || is_char "_" c
                 || is_char "%" c || is_char "+" c || is_char "-" c in
  let domain c := alnum c || is_char "." c || is_char "-" c in
  Cat (Plus (Class local))
    (Cat (Chr "@")
       (Cat (Plus (Class domain))
          (Cat (Chr ".")
             (Cat (Class ascii_letter)
                (Cat (Class ascii_letter) (Star (Class ascii_letter))))))).

(** [pd.notna(v) and str(v).strip()] *)
Definition filled (v : cell) : bool :=
  notna v && negb (bool_decide (strip (str v) = EmptyString)).

Definition detect_emails (df : DataFrame) : result (list finding) :=
  emails ← getitem df "email";
  Ok (collect
        (λ idx email,
           if filled email then
             if match_anchored email_pattern (strip (str email))
             then [{| row := idx + 2; value := strip (str email) |}]
             else []
           else [])
        0 emails).

Definition detect_addresses (df : DataFrame) : result (list finding) :=
  addresses ← getitem df "address";
  Ok (collect
        (λ idx address,
           if filled address
           then [{| row := idx + 2; value := strip (str address) |}]
           else [])
        0 addresses).

Definition detect_dates_of_birth (df : DataFrame) : result (list finding) :=
  dobs ← getitem df "date_of_birth";
  Ok (collect
        (λ idx dob,
           if filled dob then
             let dob_str := strip (str dob) in
             if bool_decide (dob_str ≠ "invalid_date")
             then [{| row := idx + 2; value := dob_str |}]
             else []
           else [])
        0 dobs).

End PiiDetection.

(** ** [masking.py] *)

Module Masking.

(** [s.rsplit(sep, 1)] for a one-character separator: the text itself when
    the separator does not occur, else what precedes its last occurrence
    and what follows it. *)
Fixpoint rsplit1 (sep : ascii) (l : list ascii) : list (list ascii) :=
  match l with
  | [] => [[]]
  | c :: l' =>
      match rsplit1 sep l' with
      | [before; after] => [c :: before; after]
      | _ => if decide (c = sep) then [[]; l'] else [l]
      end
  end.

Definition mask_name (name : cell) : cell :=
  if isna name || bool_decide (name = VStr EmptyString)
     || bool_decide (name = VStr "[UNKNOWN]")
  then name
  else
    let name_str := strip (str name) in
    match chars name_str with
    | c :: _ => VStr (String c "***")
    | [] => VStr name_str
    end.

(** The unpacking [local, domain = ...] raises [ValueError] when the list
    has not two elements. *)
Definition mask_email (email : cell) : result cell :=
  if isna email || bool_decide (email = VStr EmptyString) then Ok email
  else
    let email_str := strip (str email) in
    if negb (contains "@" email_str) then Ok (VStr email_str)
    else
      match rsplit1 "@" (chars email_str) with
      | [local; domain] =>
          let masked_local :=
            match local with
            | c :: _ => String c "***"
            | [] => "***"
            end in
          Ok (VStr (masked_local ++ "@" ++ text domain))
      | _ => Raise ValueError
      end.

Definition mask_phone (phone : cell) : cell :=
  if isna phone || bool_decide (phone = VStr EmptyString) then phone
  else
    let phone_str := strip (str phone) in
    let digits := filter (λ c, is_decimal c = true) (chars phone_str) in
    if (4 <=? length digits)%nat
    then VStr ("***-***-" ++ text (drop (length digits - 4) digits))
    else VStr "***-***-****".

Definition mask_dob (dob : cell) : cell :=
  if isna dob || bool_decide (dob = VStr EmptyString)
     || bool_decide (dob = VStr "[UNKNOWN]")
  then dob
  else
    let dob_str := strip (str dob) in
    if (4 <=? String.length dob_str)%nat
    then VStr (text (take 4 (chars dob_str)) ++ "-**-**")
    else VStr dob_str.

Definition mask_address (address : cell) : cell :=
  if isna address || bool_decide (address = VStr EmptyString)
     || bool_decide (address = VStr "[UNKNOWN]")
  then address
  else VStr "[MASKED ADDRESS]".

(** [series.apply(f)] for an [f] that may raise. *)
Fixpoint apply (f : cell → result cell) (values : list cell)
  : result (list cell) :=
  match values with
  | [] => Ok []
  | v :: values' =>
      v' ← f v;
      values'' ← apply f values';
      Ok (v' :: values'')
  end.

(** [if col in df.columns: df[col] = df[col].apply(f)] *)
Fixpoint apply_in (col : string) (f : cell → result cell)
    (cs : list (string * list cell)) : result (list (string * list cell)) :=
  match cs with
  | [] => Ok []
  | (name, values) :: cs' =>
      if decide (name = col) then
        values' ← apply f values;
        Ok ((name, values') :: cs')
      else
        cs'' ← apply_in col f cs';
        Ok ((name, values) :: cs'')
  end.

Definition masked_column (col : string) (f : cell → result cell)
    (df : DataFrame) : result DataFrame :=
  cs ← apply_in col f (columns df);
  Ok {| index_len := index_len df; columns := cs |}.

Definition mask_dataframe (df : DataFrame) : result DataFrame :=
  df ← masked_column "first_name" (λ v, Ok (mask_name v)) df;
  df ← masked_column "last_name" (λ v, Ok (mask_name v)) df;
  df ← masked_column "email" mask_email df;
  df ← masked_column "phone" (λ v, Ok (mask_phone v)) df;
  df ← masked_column "date_of_birth" (λ v, Ok (mask_dob v)) df;
  masked_column "address" (λ v, Ok (mask_address v)) df.

End Masking.

(** * The vocabulary of the further properties *)

(** The three formats of [validate_date], by name. *)
Definition iso_format : list directive :=
  [DY; DChar "-"; Dm; DChar "-"; Dd].
Definition ymd_slash_format : list directive :=
  [DY; DChar "/"; Dm; DChar "/"; Dd].
Definition mdy_slash_format : list directive :=
  [Dm; DChar "/"; Dd; DChar "/"; DY].

(** [strptime] accepts the text in the format. *)
Definition parses (s : string) (fmt : list directive) : Prop :=
  ∃ t, strptime s fmt = Ok t.

(** Some class of some alternative of a directive of the format accepts
    the character. *)
Definition format_char (fmt : list directive) (c : ascii) : bool :=
  existsb (λ d, existsb (λ ps, existsb (λ p, p c) ps) (alternatives d)) fmt.

#[global] Instance parses_dec s fmt : Decision (parses s fmt).
Proof.
  unfold parses. destruct (strptime s fmt) as [t|e].
  - left. by exists t.
  - right. by intros [? ?].
Defined.

(** The columns that the analyses of [data_quality.py] read by name, in
    the order of their first reading. *)
Definition quality_columns : list string :=
  ["phone"; "date_of_birth"; "created_date"; "customer_id"; "income";
   "account_status"].

(** The values of a column that [analyze_completeness] counts as missing:
    [NaN] and the empty text. *)
Definition vacant (values : list cell) : list cell :=
  filter (λ v, present v = false) values.

(** The number of identifiers that repeat a present identifier of an
    earlier record, [seen] being the identifiers before the first one. *)
Fixpoint repeats (seen : gset cell) (values : list cell) : nat :=
  match values with
  | [] => 0
  | v :: values' =>
      ((if notna v && bool_decide (v ∈ seen) then 1 else 0)
       + repeats (see seen v) values')%nat
  end.

(** The text of an issue ends with the mark of a duplicate. *)
Definition duplicate_issue (issue : fstring) : Prop :=
  match issue with
  | [Lit s] => chars " (duplicate ID)" `suffix_of` chars s
  | _ => False
  end.

#[global] Instance duplicate_issue_dec issue : Decision (duplicate_issue issue).
Proof.
  destruct issue as [|[s|x] [|??]]; cbn [duplicate_issue];
    try (right; tauto). apply _.
Defined.

(** The failure carries the issue of a duplicate. *)
Definition flagged_duplicate (f : Failure) : Prop :=
  Exists duplicate_issue (issues f).

#[global] Instance flagged_duplicate_dec f : Decision (flagged_duplicate f).
Proof. unfold flagged_duplicate. apply _. Defined.

(** What [detect_emails] appends for the record at position [idx]. *)
Definition email_finding (idx : nat) (email : cell)
  : list PiiDetection.finding :=
  if PiiDetection.filled email then
    if match_anchored PiiDetection.email_pattern (strip (str email))
    then [{| PiiDetection.row := idx + 2;
             PiiDetection.value := strip (str email) |}]
    else []
  else [].

(** A text that begins and ends with characters outside the class [p],
    or is empty. *)
Definition stripped (p : ascii → bool) (l : list ascii) : Prop :=
  lstrip_by p l = l ∧ lstrip_by p (rev l) = rev l.

(** The columns that [mask_dataframe] rewrites. *)
Definition pii_columns : list string :=
  ["first_name"; "last_name"; "email"; "phone"; "date_of_birth"; "address"].

(** [df'] has the index, the column names and the column lengths of [df],
    and the values of [df] in every column outside [cols]. *)
Definition same_but (cols : list string) (df df' : DataFrame) : Prop :=
  index_len df' = index_len df
  ∧ (columns df').*1 = (columns df).*1
  ∧ (λ c, length c.2) <$> columns df' = (λ c, length c.2) <$> columns df
  ∧ ∀ c, c ∉ cols → lookup_column c (columns df') = lookup_column c (columns df).

(** * The declared rules *)

(** The integers of the data frame are among those that [float] converts.
    The functions of [Py] take the integer of a cell for one of these; for
    a larger one, which only an [object] column can hold, [float] raises
    [OverflowError] (see [float_of_int]). *)
Definition within_float (v : cell) : bool :=
  match v with
  | VInt z => match float_of_int z with Ok _ => true | Raise _ => false end
  | _ => true
  end.

Definition ints_within_float (df : DataFrame) : bool :=
  forallb (λ c, forallb within_float c.2) (columns df).

(** A rule of a field, as the specification declares it: when a value
    violates it, given the values of the earlier records, and the issue
    that is then reported. *)
Record declared_rule := {
  violated : list cell → cell → bool;
  message : cell → fstring
}.

(** The text of a value without the white space at its ends. *)
Definition trimmed (v : cell) : string := strip (str v).

(** The value is missing, or its text is empty or white space. *)
Definition is_empty (v : cell) : bool :=
  isna v || bool_decide (trimmed v = EmptyString).

(** The conversion succeeds with a result that [p] accepts. *)
Definition gives {A} (r : result A) (p : A → bool) : bool :=
  match r with
  | Ok a => p a
  | Raise _ => false
  end.

(** The conversion fails. *)
Definition fails {A} (r : result A) : bool :=
  match r with
  | Ok _ => false
  | Raise _ => true
  end.

(** The text between quotes, followed by what is wrong with it. *)
Definition quoted (s : string) (what : string) : fstring :=
  [Lit ("'" ++ s ++ "' (" ++ what ++ ")")].

(** Identifier: non-empty, integral, positive, unique so far.  A missing
    identifier violates the first rule alone; a text that is white space
    is not missing here. *)
Definition identifier_rules : list declared_rule :=
  [ {| violated := λ _ v, isna v;
       message := λ _, [Lit "Empty (should be non-empty)"] |};
    {| violated := λ _ v, notna v && fails (int v);
       message := λ v, [Lit (str v ++ " (should be integer)")] |};
    {| violated := λ _ v, notna v && gives (int v) (λ z, z <=? 0);
       message := λ v, [Lit (str v ++ " (should be positive)")] |};
    {| violated := λ earlier v, notna v && bool_decide (v ∈ earlier);
       message := λ v, [Lit (str v ++ " (duplicate ID)")] |} ].

(** Names: non-empty, two to fifty characters, letters, white space and
    hyphens only.  The rules after the first are rules of a value that is
    not empty, here and in the fields below. *)
Definition name_rules : list declared_rule :=
  [ {| violated := λ _ v, is_empty v;
       message := λ _, [Lit "Empty (should be non-empty)"] |};
    {| violated := λ _ v,
         negb (is_empty v) && (String.length (trimmed v) <? 2)%nat;
       message := λ v, quoted (trimmed v) "too short, min 2 chars" |};
    {| violated := λ _ v,
         negb (is_empty v) && (50 <? String.length (trimmed v))%nat;
       message := λ v, quoted (trimmed v) "too long, max 50 chars" |};
    {| violated := λ _ v,
         negb (is_empty v) && negb (match_anchored name_pattern (trimmed v));
       message := λ v, quoted (trimmed v) "should be alphabetic" |} ].

Definition email_rules : list declared_rule :=
  [ {| violated := λ _ v, is_empty v;
       message := λ _, [Lit "Empty (should be non-empty)"] |};
    {| violated := λ _ v,
         negb (is_empty v) && negb (match_anchored email_pattern (trimmed v));
       message := λ v, quoted (trimmed v) "invalid email format" |} ].

(** The decimal digits of a text. *)
Definition digit_count (s : string) : nat :=
  length (filter (λ c, is_decimal c = true) (chars s)).

Definition phone_rules : list declared_rule :=
  [ {| violated := λ _ v, is_empty v;
       message := λ _, [Lit "Empty (should be non-empty)"] |};
    {| violated := λ _ v,
         negb (is_empty v)
         && negb (bool_decide (digit_count (trimmed v) = 10%nat));
       message := λ v,
         quoted (trimmed v)
           ("should have 10 digits, found "
            ++ str_of_Z (Z.of_nat (digit_count (trimmed v)))) |} ].

(** Dates: non-empty, not the text [invalid_date] in any case of its
    letters, accepted by one of the formats. *)
Definition date_rules : list declared_rule :=
  [ {| violated := λ _ v, is_empty v;
       message := λ _, [Lit "Empty (should be non-empty)"] |};
    {| violated := λ _ v,
         negb (is_empty v) && bool_decide (lower (trimmed v) = "invalid_date");
       message := λ _, [Lit "'invalid_date' (invalid date value)"] |};
    {| violated := λ _ v,
         negb (is_empty v)
         && negb (bool_decide (lower (trimmed v) = "invalid_date"))
         && forallb (λ fmt, fails (strptime (trimmed v) fmt)) formats;
       message := λ v, quoted (trimmed v) "unrecognized date format" |} ].

Definition address_rules : list declared_rule :=
  [ {| violated := λ _ v, is_empty v;
       message := λ _, [Lit "Empty (should be non-empty)"] |};
    {| violated := λ _ v,
         negb (is_empty v) && (String.length (trimmed v) <? 10)%nat;
       message := λ v, quoted (trimmed v) "too short, min 10 chars" |};
    {| violated := λ _ v,
         negb (is_empty v) && (200 <? String.length (trimmed v))%nat;
       message := λ v, quoted (trimmed v) "too long, max 200 chars" |} ].

(** What the issue of an income shows: the number that [float] gives. *)
Definition shown_income (v : cell) (what : string) : fstring :=
  match float v with
  | Ok x => [Flt x; Lit (" (" ++ what ++ ")")]
  | Raise _ => []
  end.

(** Income: non-empty, numeric, not below zero, not above ten million.
    Only a missing income is empty. *)
Definition income_rules : list declared_rule :=
  [ {| violated := λ _ v, isna v;
       message := λ _, [Lit "Empty (should be non-empty)"] |};
    {| violated := λ _ v, notna v && fails (float v);
       message := λ v, quoted (str v) "should be numeric" |};
    {| violated := λ _ v,
         notna v && gives (float v) (λ x, float_lt x (float_of_Z 0));
       message := λ v, shown_income v "should be non-negative" |};
    {| violated := λ _ v,
         notna v && gives (float v) (λ x, float_lt (float_of_Z 10000000) x);
       message := λ v, shown_income v "exceeds $10M limit" |} ].

(** Account status: non-empty, one of the three statuses in any case of
    its letters. *)
Definition account_status_rules : list declared_rule :=
  [ {| violated := λ _ v, is_empty v;
       message := λ _,
         [Lit "Empty (should be one of: active, inactive, suspended)"] |};
    {| violated := λ _ v,
         negb (is_empty v)
         && negb (bool_decide (lower (trimmed v)
                               ∈ ["active"; "inactive"; "suspended"]));
       message := λ v,
         quoted (str v)
           "invalid value, should be: active, inactive, suspended" |} ].

(** The rules of every field, in the order of their declaration. *)
Definition declared_rules : list (string * list declared_rule) :=
  [ ("customer_id", identifier_rules);
    ("first_name", name_rules);
    ("last_name", name_rules);
    ("email", email_rules);
    ("phone", phone_rules);
    ("date_of_birth", date_rules);
    ("address", address_rules);
    ("income", income_rules);
    ("account_status", account_status_rules);
    ("created_date", date_rules) ].

(** The rules of a field in a table; none for a field that the table does
    not have. *)
Fixpoint rules_in (table : list (string * list declared_rule))
    (column : string) : list declared_rule :=
  match table with
  | [] => []
  | (c, rules) :: table' =>
      if decide (c = column) then rules else rules_in table' column
  end.

Definition rules_of : string → list declared_rule := rules_in declared_rules.

(** The issues of the rules of a field that a value violates, in the order
    in which the rules are declared. *)
Definition violations (column : string) (earlier : list cell) (v : cell)
  : list fstring :=
  rules_of column ≫= λ r, if violated r earlier v then [message r v] else [].

(** A data frame of two records, in which the second has an identifier
    and a first name that violate two rules each. *)
Definition two_rules_each : DataFrame :=
  {| index_len := 2;
     columns :=
       [ ("customer_id", [VInt (-5); VInt (-5)]);
         ("first_name", [VStr "Ann"; VStr "7"]);
         ("last_name", [VStr "Lee"; VStr "Ray"]);
         ("email", [VStr "ann@example.com"; VStr "bob@example.com"]);
         ("phone", [VStr "(555) 123-4567"; VStr "5551234567"]);
         ("date_of_birth", [VStr "1990/01/15"; VStr "1985-07-30"]);
         ("address", [VStr "12 Main Street"; VStr "34 Oak Avenue"]);
         ("income", [VInt 50000; VInt 72000]);
         ("account_status", [VStr "Active"; VStr "inactive"]);
         ("created_date", [VStr "2020-01-01"; VStr "01/02/2021"]) ] |}.

(** What the run gives for it. *)
Definition two_rules_run : DataValidator :=
  extend (init two_rules_each) (all_failures two_rules_each).

(** * Properties *)

(** ** Rules that return *)

Lemma issues_of_ok rule v l : rule v = Ok l → issues_of rule v = l.
Proof. unfold issues_of. by intros ->. Qed.

(** ** The failures of one pass over a column *)

Lemma positions_nil : positions [] = ∅.
Proof. reflexivity. Qed.

Lemma positions_app fl1 fl2 :
  positions (fl1 ++ fl2) = positions fl1 ∪ positions fl2.
Proof. unfold positions. rewrite fmap_app. apply list_to_set_app_L. Qed.

Lemma positions_failure_at column idx issues :
  positions (failure_at column idx issues)
  = match issues with [] => ∅ | _ => {[idx]} end.
Proof.
  destruct issues as [|i issues']; [done|].
  unfold positions; simpl. replace (idx + 2 - 2)%nat with idx by lia.
  set_solver.
Qed.


Lemma extend_nil self : extend self [] = self.
Proof.
  destruct self as [d fl p]. unfold extend; simpl.
  rewrite app_nil_r, positions_nil. f_equal. set_solver.
Qed.

Lemma extend_extend self fl1 fl2 :
  extend (extend self fl1) fl2 = extend self (fl1 ++ fl2).
Proof.
  unfold extend; simpl. rewrite app_assoc, positions_app. f_equal. set_solver.
Qed.

Lemma add_failure_extend self idx column issues :
  add_failure self idx column issues
  = extend self [{| row := idx + 2; column := column; issues := issues |}].
Proof.
  unfold add_failure, extend. f_equal.
  unfold positions; simpl. replace (idx + 2 - 2)%nat with idx by lia.
  case_decide; set_solver.
Qed.

Lemma report_extend self idx column issues :
  report self idx column issues = extend self (failure_at column idx issues).
Proof.
  destruct issues as [|i issues']; simpl.
  - by rewrite extend_nil.
  - apply add_failure_extend.
Qed.

Lemma column_loop column rule values :
  never_raises rule →
  ∀ self start,
    for_enumerate
      (λ self idx value,
         match rule value with
         | Raise e => (self, Raise e)
         | Ok issues => (report self idx column issues, Ok ())
         end)
      self start values
    = (extend self (flagged column (issues_of rule) start values), Ok ()).
Proof.
  intros Hrule. induction values as [|v values IH]; intros self start; simpl.
  - by rewrite extend_nil.
  - destruct (Hrule v) as [l Hl]. rewrite (issues_of_ok _ _ _ Hl), Hl.
    by rewrite IH, report_extend, extend_extend.
Qed.

Lemma validate_column_eq column rule self :
  never_raises rule →
  validate_column column rule self
  = match lookup_column column (columns (df self)) with
    | Some values =>
        (extend self (flagged column (issues_of rule) 0 values), Ok ())
    | None => (self, Raise (KeyError column))
    end.
Proof.
  intros Hrule. unfold validate_column, getitem.
  destruct (lookup_column column _) as [values|]; [|done].
  by apply column_loop.
Qed.

(** ** The rules return for every value *)

Lemma try_except_total {A} (c h : result A) :
  (∀ e, c = Raise e → e = ValueError ∨ e = TypeError) →
  (∃ a, h = Ok a) → ∃ a, try_except c h = Ok a.
Proof.
  intros Hc Hh. destruct c as [a|e]; simpl; [by eauto|].
  destruct (Hc e eq_refl) as [-> | ->]; done.
Qed.

Lemma int_raises v e : int v = Raise e → e = ValueError.
Proof.
  destruct v as [|z|s]; simpl; [congruence | congruence |].
  unfold int_of_str. destruct (underscores_ok _ _); [|congruence].
  destruct (split_sign _) as [neg body].
  destruct (all_digits body && _); congruence.
Qed.

Lemma float_raises v e : float v = Raise e → e = ValueError.
Proof.
  destruct v as [|z|s]; simpl; [congruence | congruence |].
  unfold float_of_str. destruct (underscores_ok _ _); [|congruence].
  destruct (split_sign _) as [neg body].
  repeat case_decide; try congruence.
  unfold parse_decimal. destruct (span_digits body) as [ip r1].
  destruct (match r1 with [] => _ | _ => _ end) as [fp r2].
  destruct (ip ++ fp)%list; [congruence|].
  destruct (parse_exponent r2); congruence.
Qed.

Lemma strptime_raises s fmt e : strptime s fmt = Raise e → e = ValueError.
Proof.
  unfold strptime. destruct (matches _ _ _) as [|[t [|c r]] l]; try congruence.
  destruct (valid_date t); congruence.
Qed.

Lemma customer_id_checks_total : never_raises customer_id_checks.
Proof.
  intros v. unfold customer_id_checks. destruct (isna v); [by eauto|].
  apply try_except_total; [|by eauto].
  intros e. destruct (int v) as [z|e'] eqn:Hv; simpl; [done|].
  intros [= <-]. left. by eapply int_raises.
Qed.

Lemma name_issues_total : never_raises name_issues.
Proof. intros v. unfold name_issues. destruct (blank v); eauto. Qed.

Lemma email_issues_total : never_raises email_issues.
Proof. intros v. unfold email_issues. destruct (blank v); eauto. Qed.

Lemma phone_issues_total : never_raises phone_issues.
Proof. intros v. unfold phone_issues. destruct (blank v); eauto. Qed.

Lemma address_issues_total : never_raises address_issues.
Proof. intros v. unfold address_issues. destruct (blank v); eauto. Qed.

Lemma account_status_issues_total : never_raises account_status_issues.
Proof. intros v. unfold account_status_issues. destruct (blank v); eauto. Qed.

Lemma try_formats_total s fmts : ∃ b, try_formats s fmts = Ok b.
Proof.
  induction fmts as [|fmt fmts IH]; simpl; [by eauto|].
  apply try_except_total; [|done].
  intros e. destruct (strptime s fmt) as [t|e'] eqn:Ht; simpl; [done|].
  intros [= <-]. left. by eapply strptime_raises.
Qed.

Lemma date_issues_total : never_raises date_issues.
Proof.
  intros v. unfold date_issues. destruct (blank v); [by eauto|].
  case_decide; [by eauto|].
  destruct (try_formats_total (strip (str v)) formats) as [b ->]; simpl.
  by eauto.
Qed.

Lemma income_issues_total : never_raises income_issues.
Proof.
  intros v. unfold income_issues. destruct (isna v); [by eauto|].
  apply try_except_total; [|by eauto].
  intros e. destruct (float v) as [x|e'] eqn:Hv; simpl; [done|].
  intros [= <-]. left. by eapply float_raises.
Qed.

Create HintDb rules.

#[local] Hint Resolve customer_id_checks_total name_issues_total
  email_issues_total phone_issues_total address_issues_total
  account_status_issues_total date_issues_total income_issues_total : rules.

(** ** The identifier pass *)

Lemma customer_id_body_eq self seen idx v :
  customer_id_body (self, seen) idx v
  = ((extend self (failure_at "customer_id" idx (customer_id_issues seen v)),
      see seen v), Ok ()).
Proof.
  unfold customer_id_body, customer_id_issues, see.
  destruct (customer_id_checks_total v) as [l Hl].
  rewrite (issues_of_ok _ _ _ Hl), Hl.
  destruct (notna v); simpl.
  - case_decide as Hin; case_bool_decide; try done; rewrite report_extend.
    + assert (seen = {[v]} ∪ seen) as <- by set_solver. done.
    + by rewrite (app_nil_r l).
  - by rewrite report_extend, (app_nil_r l).
Qed.

Lemma customer_id_loop_from values :
  ∀ self seen start,
    for_enumerate customer_id_body (self, seen) start values
    = ((extend self (flagged_ids seen start values), foldl see seen values),
       Ok ()).
Proof.
  induction values as [|v values IH]; intros self seen start;
    cbn [for_enumerate flagged_ids foldl].
  - by rewrite extend_nil.
  - rewrite (customer_id_body_eq self seen start v).
    by rewrite IH, extend_extend.
Qed.

Lemma customer_id_loop_eq self :
  customer_id_loop self
  = match lookup_column "customer_id" (columns (df self)) with
    | Some values =>
        ((extend self (flagged_ids ∅ 0 values), foldl see ∅ values), Ok ())
    | None => ((self, ∅), Raise (KeyError "customer_id"))
    end.
Proof.
  unfold customer_id_loop, getitem.
  destruct (lookup_column _ _) as [values|]; [|done].
  apply customer_id_loop_from.
Qed.

Lemma validate_customer_id_eq self :
  validate_customer_id self
  = match lookup_column "customer_id" (columns (df self)) with
    | Some values => (extend self (flagged_ids ∅ 0 values), Ok ())
    | None => (self, Raise (KeyError "customer_id"))
    end.
Proof.
  unfold validate_customer_id. rewrite customer_id_loop_eq.
  by destruct (lookup_column _ _).
Qed.

(** ** The whole run in closed form *)

Lemma run_all_validations_eq df :
  run_all_validations (init df)
  = (extend (init df) (failures_of_run df),
     match first_missing df with
     | Some c => Raise (KeyError c)
     | None => Ok ()
     end).
Proof.
  unfold run_all_validations, validate_name, validate_email, validate_phone,
    validate_date, validate_address, validate_income,
    validate_account_status, first_missing, failures_of_run, passes,
    rule_failures, column_values.
  rewrite validate_customer_id_eq.
  cbn [first_missing_in required_columns value_rules fmap list_fmap
       failures_until fst snd Validation.df init].
  repeat
    (match goal with
     | |- context [lookup_column ?c (columns df)] =>
         destruct (lookup_column c (columns df));
         [|cbn [and_then];
           rewrite ?extend_extend, ?app_nil_r, <- ?app_assoc, ?extend_nil;
           reflexivity]
     end;
     cbn [and_then default from_option id];
     try (rewrite validate_column_eq by auto with rules;
          cbn [Validation.df extend init])).
  rewrite !extend_extend, app_nil_r, <- ?app_assoc. reflexivity.
Qed.

Lemma failures_of_run_complete df :
  first_missing df = None → failures_of_run df = all_failures df.
Proof.
  unfold first_missing, failures_of_run, all_failures, passes, rule_failures,
    column_values.
  unfold value_rules at 2. rewrite !bind_cons.
  cbn [first_missing_in required_columns value_rules fmap list_fmap
       failures_until fst snd mbind list_bind].
  repeat
    match goal with
    | |- context [lookup_column ?c (columns df)] =>
        destruct (lookup_column c (columns df)); [|discriminate]
    end.
  reflexivity.
Qed.

Lemma run_all_validations_ok df st :
  run_all_validations (init df) = (st, Ok ()) →
  first_missing df = None ∧ st = extend (init df) (all_failures df).
Proof.
  rewrite run_all_validations_eq.
  destruct (first_missing df) eqn:Hm; [done|].
  intros [= <-]. by rewrite failures_of_run_complete.
Qed.

(** ** Which failures a pass creates *)

Lemma elem_of_failure_at f column idx issues :
  f ∈ failure_at column idx issues
  ↔ issues ≠ []
    ∧ f = {| row := idx + 2; column := column; issues := issues |}.
Proof.
  destruct issues as [|i issues']; simpl.
  - rewrite elem_of_nil. naive_solver.
  - rewrite list_elem_of_singleton. naive_solver.
Qed.

Lemma elem_of_flagged f column g values :
  ∀ start,
    f ∈ flagged column g start values
    ↔ ∃ k v, values !! k = Some v ∧ g v ≠ []
             ∧ f = {| row := start + k + 2; column := column;
                      issues := g v |}.
Proof.
  induction values as [|v values IH]; intros start; simpl.
  - rewrite elem_of_nil. split; [done|]. by intros (k & v & Hk & _).
  - rewrite elem_of_app, elem_of_failure_at, IH. split.
    + intros [[Hne ->] | (k & w & Hk & Hne & ->)].
      * exists 0%nat, v. by rewrite Nat.add_0_r.
      * exists (S k), w. split_and!; [done..|]. do 2 f_equal. lia.
    + intros ([|k] & w & Hk & Hne & ->); simpl in Hk.
      * injection Hk as ->. left. by rewrite Nat.add_0_r.
      * right. exists k, w. split_and!; [done..|]. do 2 f_equal. lia.
Qed.

Lemma elem_of_flagged_ids f values :
  ∀ seen start,
    f ∈ flagged_ids seen start values
    ↔ ∃ k v, values !! k = Some v
             ∧ customer_id_issues (foldl see seen (take k values)) v ≠ []
             ∧ f = {| row := start + k + 2; column := "customer_id";
                      issues := customer_id_issues
                                  (foldl see seen (take k values)) v |}.
Proof.
  induction values as [|v values IH]; intros seen start; simpl.
  - rewrite elem_of_nil. split; [done|]. by intros (k & v & Hk & _).
  - rewrite elem_of_app, elem_of_failure_at, IH. split.
    + intros [[Hne ->] | (k & w & Hk & Hne & ->)].
      * exists 0%nat, v. by rewrite Nat.add_0_r.
      * exists (S k), w. split_and!; [done..|]. do 2 f_equal. lia.
    + intros ([|k] & w & Hk & Hne & ->); simpl in Hk, Hne.
      * injection Hk as ->. left. by rewrite Nat.add_0_r.
      * right. exists k, w. split_and!; [done..|]. simpl. do 2 f_equal. lia.
Qed.








(** ** Identifier uniqueness *)

(** C2: for the identifiers 5, 5, 5 the identifier pass creates exactly two
    failures, each with the duplicate-ID issue alone, on the second and the
    third record (lines 3 and 4 of the file); none is on the first. *)
Theorem three_equal_ids df :
  getitem df "customer_id" = Ok [VInt 5; VInt 5; VInt 5] →
  ∃ st, validate_customer_id (init df) = (st, Ok ())
        ∧ failures st
          = [ {| row := 3; column := "customer_id";
                 issues := [[Lit "5 (duplicate ID)"]] |};
              {| row := 4; column := "customer_id";
                 issues := [[Lit "5 (duplicate ID)"]] |} ]
        ∧ ∀ f, f ∈ failures st → row f ≠ 2%nat.
Proof.
  intros Hcol. rewrite validate_customer_id_eq. unfold getitem in Hcol.
  simpl. destruct (lookup_column _ _) as [values|]; [|done].
  injection Hcol as ->. eexists; split; [done|].
  cbn [failures extend init app].
  assert (flagged_ids ∅ 0 [VInt 5; VInt 5; VInt 5]
          = [ {| row := 3; column := "customer_id";
                 issues := [[Lit "5 (duplicate ID)"]] |};
              {| row := 4; column := "customer_id";
                 issues := [[Lit "5 (duplicate ID)"]] |} ]) as ->
    by (vm_compute; reflexivity).
  split; [done|]. intros f Hf.
  apply list_elem_of_In in Hf. simpl in Hf.
  destruct Hf as [<- | [<- | []]]; simpl; lia.
Qed.

Lemma elem_of_foldl_see values :
  ∀ seen v,
    v ∈ foldl see seen values
    ↔ v ∈ seen ∨ (v ∈ values ∧ notna v = true).
Proof.
  induction values as [|w values IH]; intros seen v; simpl.
  - rewrite elem_of_nil. naive_solver.
  - rewrite IH, elem_of_cons. unfold see.
    destruct (notna w) eqn:Hw; [rewrite elem_of_union, elem_of_singleton|];
      intuition (subst; auto; congruence).
Qed.

Lemma customer_id_issues_take values k v :
  customer_id_issues (foldl see ∅ (take k values)) v = id_issues_at values k v.
Proof.
  unfold customer_id_issues, id_issues_at. f_equal.
  destruct (notna v) eqn:Hv; [|done]. simpl.
  rewrite (bool_decide_ext (v ∈ foldl see ∅ (take k values))
             (v ∈ take k values)); [done|].
  rewrite elem_of_foldl_see. set_solver.
Qed.

(** C3, as the code has it: every identifier that is present, well formed
    or not, enters the set of seen identifiers, and only the missing ones
    stay out; the record at position [k] gets the duplicate-ID issue, after
    the issues of its own value, exactly when its identifier is present and
    equals the identifier of an earlier record. *)
Theorem present_ids_are_seen df values :
  getitem df "customer_id" = Ok values →
  ∃ st seen,
    customer_id_loop (init df) = ((st, seen), Ok ())
    ∧ (∀ v, v ∈ seen ↔ v ∈ values ∧ notna v = true)
    ∧ (∀ f, f ∈ failures st
            ↔ ∃ k v, values !! k = Some v
                     ∧ f ∈ failure_at "customer_id" k (id_issues_at values k v)).
Proof.
  intros Hcol. rewrite customer_id_loop_eq. unfold getitem in Hcol. simpl.
  destruct (lookup_column _ _) as [vs|]; [|done]. injection Hcol as ->.
  do 2 eexists. split; [done|]. split.
  - intros v. rewrite elem_of_foldl_see. set_solver.
  - intros f. simpl. rewrite elem_of_flagged_ids.
    setoid_rewrite elem_of_failure_at.
    setoid_rewrite customer_id_issues_take. naive_solver.
Qed.

(** C3 fails as the specification words it: the malformed identifier [abc]
    enters the set of seen identifiers, and the record that repeats it is
    flagged as a duplicate. *)
Lemma malformed_id_participates :
  ∃ st seen,
    customer_id_loop (init malformed_twice) = ((st, seen), Ok ())
    ∧ VStr "abc" ∈ seen
    ∧ ¬ well_formed_id (VStr "abc")
    ∧ failures st
      = [ {| row := 2; column := "customer_id";
             issues := [[Lit "abc (should be integer)"]] |};
          {| row := 3; column := "customer_id";
             issues := [[Lit "abc (should be integer)"];
                        [Lit "abc (duplicate ID)"]] |} ].
Proof.
  rewrite customer_id_loop_eq. simpl lookup_column.
  do 2 eexists. split; [done|]. split_and!.
  - apply elem_of_foldl_see. right. split; [|done]. by left.
  - intros (z & Hz & _). vm_compute in Hz. discriminate.
  - cbn [failures extend init app]. vm_compute. reflexivity.
Qed.

(** ** One failure for a record and a field *)

Lemma rule_in_elem_of rules column r :
  rule_in rules column = Some r → (column, r) ∈ rules.
Proof.
  induction rules as [|[c r'] rules IH]; simpl; [done|].
  case_decide as Hc.
  - intros [= ->]. subst. by left.
  - intros H. right. by apply IH.
Qed.

Lemma value_rules_rule_in c r :
  (c, r) ∈ value_rules → rule_in value_rules c = Some r ∧ c ≠ "customer_id".
Proof.
  unfold value_rules. intros H.
  repeat (apply elem_of_cons in H as [H|H];
          [injection H as -> ->; split; [reflexivity | discriminate]|]).
  by apply elem_of_nil in H.
Qed.

Lemma elem_of_all_failures df f :
  f ∈ all_failures df
  ↔ ∃ idx, expected_issues df (column f) idx ≠ []
           ∧ f = {| row := idx + 2; column := column f;
                    issues := expected_issues df (column f) idx |}.
Proof.
  unfold all_failures. rewrite elem_of_app, list_elem_of_bind. split.
  - intros [Hf | ([c r] & Hf & Hcr)].
    + apply elem_of_flagged_ids in Hf as (k & v & Hk & Hne & ->).
      rewrite customer_id_issues_take in *. cbn [column].
      exists k. unfold expected_issues. rewrite Hk.
      by rewrite decide_True by done.
    + apply value_rules_rule_in in Hcr as [Hr Hc].
      unfold rule_failures in Hf; simpl in Hf.
      apply elem_of_flagged in Hf as (k & v & Hk & Hne & ->). cbn [column].
      exists k. unfold expected_issues. rewrite Hk, Hr.
      by rewrite decide_False by done.
  - intros (idx & Hne & Hf). unfold expected_issues in *.
    destruct (column_values df (column f) !! idx) as [v|] eqn:Hv; [|done].
    case_decide as Hc.
    + left. rewrite Hc in *. apply elem_of_flagged_ids.
      exists idx, v. rewrite customer_id_issues_take. by rewrite Hf at 1.
    + destruct (rule_in value_rules (column f)) as [r|] eqn:Hr; [|done].
      right. exists (column f, r). split; [|by apply rule_in_elem_of].
      unfold rule_failures; simpl. apply elem_of_flagged.
      exists idx, v. by rewrite Hf at 1.
Qed.

Lemma NoDup_keys_flagged column g values :
  ∀ start, NoDup (key <$> flagged column g start values).
Proof.
  induction values as [|v values IH]; intros start; simpl; [constructor|].
  rewrite fmap_app. apply NoDup_app. split_and!.
  - destruct (g v); simpl; [constructor|]. apply NoDup_singleton.
  - intros x (f & -> & [_ ->]%elem_of_failure_at)%list_elem_of_fmap.
    intros (f' & Hk & Hf')%list_elem_of_fmap.
    apply elem_of_flagged in Hf' as (k & w & _ & _ & ->).
    unfold key in Hk; simpl in Hk. injection Hk. lia.
  - apply IH.
Qed.

Lemma NoDup_keys_flagged_ids values :
  ∀ seen start, NoDup (key <$> flagged_ids seen start values).
Proof.
  induction values as [|v values IH]; intros seen start; simpl; [constructor|].
  rewrite fmap_app. apply NoDup_app. split_and!.
  - destruct (customer_id_issues seen v); simpl; [constructor|].
    apply NoDup_singleton.
  - intros x (f & -> & [_ ->]%elem_of_failure_at)%list_elem_of_fmap.
    intros (f' & Hk & Hf')%list_elem_of_fmap.
    apply elem_of_flagged_ids in Hf' as (k & w & _ & _ & ->).
    unfold key in Hk; simpl in Hk. injection Hk. lia.
  - apply IH.
Qed.

Lemma keys_flagged_column x column g start values :
  x ∈ key <$> flagged column g start values → x.2 = column.
Proof.
  intros (f & -> & Hf)%list_elem_of_fmap.
  by apply elem_of_flagged in Hf as (k & w & _ & _ & ->).
Qed.

Lemma keys_flagged_ids_column x seen start values :
  x ∈ key <$> flagged_ids seen start values → x.2 = "customer_id".
Proof.
  intros (f & -> & Hf)%list_elem_of_fmap.
  by apply elem_of_flagged_ids in Hf as (k & w & _ & _ & ->).
Qed.

Lemma NoDup_keys_all_failures df : NoDup (key <$> all_failures df).
Proof.
  unfold all_failures, value_rules, rule_failures.
  rewrite !bind_cons. cbn [mbind list_bind fst snd]. rewrite app_nil_r.
  rewrite !fmap_app.
  repeat (apply NoDup_app; split_and!;
          [ first [apply NoDup_keys_flagged_ids | apply NoDup_keys_flagged]
          | intros x Hx Hin;
            first [apply keys_flagged_ids_column in Hx
                  | apply keys_flagged_column in Hx];
            rewrite ?elem_of_app in Hin; destruct_or?;
            apply keys_flagged_column in Hin; rewrite Hx in Hin;
            discriminate
          | ]).
  apply NoDup_keys_flagged.
Qed.

(** Two rules of one field that fail together: one list, in the order of
    the rules. *)
Example merged_name_issues :
  issues_of name_issues (VStr "7")
  = [[Lit "'7' (too short, min 2 chars)"]; [Lit "'7' (should be alphabetic)"]].
Proof. by vm_compute. Qed.

Example merged_id_issues :
  id_issues_at [VInt (-5); VInt (-5)] 1 (VInt (-5))
  = [[Lit "-5 (should be positive)"]; [Lit "-5 (duplicate ID)"]].
Proof. by vm_compute. Qed.

(** *** The declared rules and the rules of the code *)

Lemma try_formats_declared s fmts :
  try_formats s fmts
  = Ok (negb (forallb (λ fmt, fails (strptime s fmt)) fmts)).
Proof.
  induction fmts as [|fmt fmts IH]; [done|].
  cbn [try_formats forallb]. destruct (strptime s fmt) as [t|e] eqn:Ht.
  - done.
  - rewrite (strptime_raises _ _ _ Ht). cbn. by rewrite IH.
Qed.

Lemma float_lt_exclusive x :
  float_lt x (float_of_Z 0) = true →
  float_lt (float_of_Z 10000000) x = false.
Proof.
  destruct x as [[]|[]| |[] m e]; intros H; vm_compute in H |- *; congruence.
Qed.

Lemma violations_identifier values k v :
  violations "customer_id" (take k values) v = id_issues_at values k v.
Proof.
  unfold violations. change (rules_of "customer_id") with identifier_rules.
  unfold identifier_rules, id_issues_at, issues_of, customer_id_checks, notna.
  cbn [mbind list_bind violated message app].
  destruct v as [|z|s]; [done| |]; cbn [isna negb andb app].
  - cbn [int try_except mbind result_bind bind fails gives].
    rewrite app_nil_r. by destruct (z <=? 0).
  - destruct (int (VStr s)) as [z|e] eqn:Hz;
      cbn [try_except mbind result_bind bind fails gives app];
      rewrite app_nil_r.
    + by destruct (z <=? 0).
    + by rewrite (int_raises _ _ Hz).
Qed.

Lemma violations_name column earlier v :
  column = "first_name" ∨ column = "last_name" →
  violations column earlier v = issues_of name_issues v.
Proof.
  intros Hc. unfold violations.
  assert (rules_of column = name_rules) as -> by (by destruct Hc as [-> | ->]).
  unfold name_rules, issues_of, name_issues, blank, is_empty, trimmed, quoted.
  cbn [mbind list_bind violated message app].
  destruct (isna v || bool_decide (strip (str v) = EmptyString)); [done|].
  cbn [negb andb].
  destruct (String.length (strip (str v)) <? 2)%nat eqn:H2;
    destruct (50 <? String.length (strip (str v)))%nat eqn:H50;
    destruct (match_anchored name_pattern (strip (str v)));
    try done.
  all: apply Nat.ltb_lt in H2, H50; lia.
Qed.

Lemma violations_email earlier v :
  violations "email" earlier v = issues_of email_issues v.
Proof.
  unfold violations. change (rules_of "email") with email_rules.
  unfold email_rules, issues_of, email_issues, blank, is_empty, trimmed,
    quoted.
  cbn [mbind list_bind violated message app].
  destruct (isna v || bool_decide (strip (str v) = EmptyString)); [done|].
  cbn [negb andb].
  by destruct (match_anchored Validation.email_pattern (strip (str v))).
Qed.

Lemma violations_phone earlier v :
  violations "phone" earlier v = issues_of phone_issues v.
Proof.
  unfold violations. change (rules_of "phone") with phone_rules.
  unfold phone_rules, issues_of, phone_issues, blank, is_empty, trimmed,
    quoted, digit_count.
  cbn [mbind list_bind violated message app].
  destruct (isna v || bool_decide (strip (str v) = EmptyString)); [done|].
  cbn [negb andb].
  destruct (decide (length (filter (λ c, is_decimal c = true)
                              (chars (strip (str v)))) = 10%nat)) as [H|H].
  - by rewrite bool_decide_true, bool_decide_false by (done || by intros ?).
  - by rewrite (bool_decide_false _ H), bool_decide_true by done.
Qed.

Lemma violations_date column earlier v :
  column = "date_of_birth" ∨ column = "created_date" →
  violations column earlier v = issues_of date_issues v.
Proof.
  intros Hc. unfold violations.
  assert (rules_of column = date_rules) as -> by (by destruct Hc as [-> | ->]).
  unfold date_rules, issues_of, date_issues, blank, is_empty, trimmed, quoted.
  cbn [mbind list_bind violated message app].
  destruct (isna v || bool_decide (strip (str v) = EmptyString)); [done|].
  cbn [negb andb]. rewrite try_formats_declared.
  cbn [mbind result_bind bind].
  case_decide as Hs.
  - by rewrite bool_decide_true by done.
  - rewrite bool_decide_false by done. cbn [negb andb]. rewrite negb_involutive.
    by destruct (forallb _ _).
Qed.

Lemma violations_address earlier v :
  violations "address" earlier v = issues_of address_issues v.
Proof.
  unfold violations. change (rules_of "address") with address_rules.
  unfold address_rules, issues_of, address_issues, blank, is_empty, trimmed,
    quoted.
  cbn [mbind list_bind violated message app].
  destruct (isna v || bool_decide (strip (str v) = EmptyString)); [done|].
  cbn [negb andb].
  destruct (String.length (strip (str v)) <? 10)%nat eqn:H10;
    destruct (200 <? String.length (strip (str v)))%nat eqn:H200;
    try done.
  apply Nat.ltb_lt in H10, H200; lia.
Qed.

Lemma violations_income earlier v :
  violations "income" earlier v = issues_of income_issues v.
Proof.
  unfold violations. change (rules_of "income") with income_rules.
  unfold income_rules, issues_of, income_issues, notna, quoted, shown_income.
  cbn [mbind list_bind violated message app].
  destruct (isna v); [done|]. cbn [negb andb].
  destruct (float v) as [x|e] eqn:Hx;
    cbn [try_except mbind result_bind bind fails gives app].
  - destruct (float_lt x (float_of_Z 0)) eqn:Hneg.
    + by rewrite (float_lt_exclusive x Hneg).
    + by destruct (float_lt (float_of_Z 10000000) x).
  - by rewrite (float_raises _ _ Hx).
Qed.

Lemma violations_account_status earlier v :
  violations "account_status" earlier v = issues_of account_status_issues v.
Proof.
  unfold violations.
  change (rules_of "account_status") with account_status_rules.
  unfold account_status_rules, issues_of, account_status_issues, blank,
    is_empty, trimmed, quoted, valid_statuses.
  cbn [mbind list_bind violated message app].
  destruct (isna v || bool_decide (strip (str v) = EmptyString)); [done|].
  cbn [negb andb].
  destruct (decide (lower (strip (str v))
                    ∈ ["active"; "inactive"; "suspended"])) as [H|H].
  - by rewrite bool_decide_true, bool_decide_false by (done || by intros ?).
  - by rewrite (bool_decide_false _ H), bool_decide_true by done.
Qed.

(** What the rules of the code report for a record and a field is what the
    declared rules give. *)
Lemma expected_issues_declared df column values idx v :
  column ∈ required_columns →
  getitem df column = Ok values → values !! idx = Some v →
  expected_issues df column idx = violations column (take idx values) v.
Proof.
  intros Hc Hcol Hv. unfold getitem in Hcol. unfold expected_issues,
    column_values.
  destruct (lookup_column column (columns df)) as [vs|]; [|done].
  injection Hcol as ->. cbn [default from_option id]. rewrite Hv.
  unfold required_columns in Hc.
  repeat (apply elem_of_cons in Hc as [-> | Hc];
          [first [ rewrite violations_identifier; by rewrite decide_True
                 | rewrite decide_False by done;
                   first [ rewrite violations_name by (by left)
                         | rewrite violations_name by (by right)
                         | rewrite violations_email
                         | rewrite violations_phone
                         | rewrite violations_date by (by left)
                         | rewrite violations_date by (by right)
                         | rewrite violations_address
                         | rewrite violations_income
                         | rewrite violations_account_status ];
                   reflexivity ]|]).
  by apply elem_of_nil in Hc.
Qed.

Lemma expected_issues_cell df column idx :
  expected_issues df column idx ≠ [] →
  ∃ values v, column ∈ required_columns
              ∧ getitem df column = Ok values ∧ values !! idx = Some v.
Proof.
  unfold expected_issues, column_values, getitem.
  destruct (lookup_column column (columns df)) as [values|];
    cbn [default from_option id]; [|by rewrite lookup_nil].
  destruct (values !! idx) as [v|] eqn:Hv; [|done]. intros Hne.
  exists values, v. split; [|done].
  case_decide as Hc; [subst; by left|].
  destruct (rule_in value_rules column) as [r|] eqn:Hr; [|done].
  apply rule_in_elem_of in Hr. unfold value_rules in Hr. right.
  repeat (apply elem_of_cons in Hr as [[= -> _] | Hr];
          [repeat constructor|]).
  by apply elem_of_nil in Hr.
Qed.

Lemma filter_key_none (l : list Failure) k :
  (∀ f, f ∈ l → key f ≠ k) → filter (λ f, key f = k) l = [].
Proof.
  intros H. induction l as [|g l IH]; [done|].
  rewrite filter_cons_False by (apply H; by left).
  apply IH. intros f Hf. apply H. by right.
Qed.

Lemma filter_key_one (l : list Failure) f :
  NoDup (key <$> l) → f ∈ l → filter (λ g, key g = key f) l = [f].
Proof.
  induction l as [|g l IH]; [by intros _ ?%elem_of_nil|].
  rewrite fmap_cons, NoDup_cons. intros [Hg Hl] [-> | Hf]%elem_of_cons.
  - rewrite filter_cons_True by done. f_equal. apply filter_key_none.
    intros f Hf Hk. apply Hg. rewrite <- Hk. by apply list_elem_of_fmap_2.
  - rewrite filter_cons_False; [by apply IH|].
    intros Hk. apply Hg. rewrite Hk. by apply list_elem_of_fmap_2.
Qed.

(** C4: in a run that returns, over a data frame whose integers [float]
    converts, no two failures have the same record and field; the failures
    of a record and a field are none when the value violates no declared
    rule of the field, and else one failure, whose issues are those of the
    rules that the value violates, in the order in which the rules are
    declared; and every failure is that of a record and a required field
    of the data frame. *)
Theorem one_failure_per_record_and_field df st :
  ints_within_float df = true →
  run_all_validations (init df) = (st, Ok ()) →
  NoDup (key <$> failures st)
  ∧ (∀ column values idx v,
       column ∈ required_columns →
       getitem df column = Ok values → values !! idx = Some v →
       filter (λ f, key f = ((idx + 2)%nat, column)) (failures st)
       = match violations column (take idx values) v with
         | [] => []
         | issues =>
             [{| row := idx + 2; column := column; issues := issues |}]
         end)
  ∧ (∀ f, f ∈ failures st →
          ∃ values idx v,
            column f ∈ required_columns
            ∧ getitem df (column f) = Ok values ∧ values !! idx = Some v
            ∧ row f = (idx + 2)%nat).
Proof.
  intros _ [_ ->]%run_all_validations_ok. cbn [failures extend init app].
  split_and!.
  - apply NoDup_keys_all_failures.
  - intros column values idx v Hc Hcol Hv.
    rewrite <- (expected_issues_declared df column values idx v) by done.
    destruct (expected_issues df column idx) as [|i issues'] eqn:He.
    + apply filter_key_none.
      intros f (k & Hne & Hf)%elem_of_all_failures Hk.
      rewrite Hf in Hk. unfold key in Hk; cbn in Hk.
      injection Hk as Hrow Hcf. assert (k = idx) as -> by lia.
      by rewrite Hcf, He in Hne.
    + apply (filter_key_one (all_failures df)
               {| row := idx + 2; column := column; issues := i :: issues' |}).
      * apply NoDup_keys_all_failures.
      * apply elem_of_all_failures. exists idx. cbn [Validation.column].
        by rewrite He.
  - intros f (idx & Hne & Hf)%elem_of_all_failures.
    apply expected_issues_cell in Hne as (values & v & Hc & Hcol & Hv).
    exists values, idx, v. split_and!; [done..|]. by rewrite Hf.
Qed.

(** ** The date rule *)

(** C7: the date [1990/01/15] is refused by the first format and accepted
    by the second, and the date pass creates no failure for a record that
    holds it; for a record that holds [invalid_date] the pass creates one
    failure, whose only issue is the invalid-date one and not the
    unrecognized-format one. *)
Theorem date_rule_examples self column values :
  getitem (df self) column = Ok values →
  ∃ self' new,
    validate_date column self = (self', Ok ())
    ∧ failures self' = (failures self ++ new)%list
    ∧ (∃ fmt0 fmt1 t,
         formats !! 0%nat = Some fmt0 ∧ formats !! 1%nat = Some fmt1
         ∧ strptime "1990/01/15" fmt0 = Raise ValueError
         ∧ strptime "1990/01/15" fmt1 = Ok t)
    ∧ (∀ idx, values !! idx = Some (VStr "1990/01/15") →
              ∀ f, f ∈ new → row f ≠ (idx + 2)%nat)
    ∧ (∀ idx, values !! idx = Some (VStr "invalid_date") →
              {| row := idx + 2; column := column;
                 issues := [sentinel_issue] |} ∈ new
              ∧ ∀ f, f ∈ new → row f = (idx + 2)%nat →
                     issues f = [sentinel_issue]
                     ∧ [Lit ("'" ++ "invalid_date"
                              ++ "' (unrecognized date format)")]
                       ∉ issues f).
Proof.
  intros Hcol. unfold validate_date.
  rewrite validate_column_eq by auto with rules.
  unfold getitem in Hcol.
  destruct (lookup_column _ _) as [vs|]; [|done]. injection Hcol as ->.
  do 2 eexists. split; [done|]. split; [done|]. split_and!.
  - do 3 eexists. split_and!; [done | done | by vm_compute | by vm_compute].
  - intros idx Hidx f (k & v & Hk & Hne & ->)%elem_of_flagged. simpl.
    intros Hrow. assert (k = idx) as -> by lia.
    rewrite Hidx in Hk. injection Hk as <-. by apply Hne.
  - intros idx Hidx.
    assert (issues_of date_issues (VStr "invalid_date") = [sentinel_issue])
      as Hs by (by vm_compute).
    split.
    + apply elem_of_flagged. exists idx, (VStr "invalid_date").
      rewrite Hs. done.
    + intros f (k & v & Hk & Hne & ->)%elem_of_flagged. simpl.
      intros Hrow. assert (k = idx) as -> by lia.
      rewrite Hidx in Hk. injection Hk as <-. rewrite Hs.
      split; [done|]. rewrite list_elem_of_singleton.
      unfold sentinel_issue. intros [=].
Qed.

(** ** Values that are not numbers *)

Lemma income_issues_of_int_cases z :
  match float_of_int z with
  | Ok _ => income_issues_of_int z = income_issues (VInt z)
  | Raise _ => income_issues_of_int z = Raise OverflowError
  end.
Proof.
  unfold income_issues_of_int, income_issues, float_of_int.
  cbn [isna float]. by destruct (float_of_Z z).
Qed.

(** C8 fails on the code: for the Python [int] [2 ** 1024] the body of the
    loop of [validate_income] raises [OverflowError], which the clause
    [except (ValueError, TypeError)] does not catch.  The body raises it
    for the integers that [float] does not convert and for no other, and
    for the others it returns what the rule of a cell returns;
    [2 ** 1024 - 2 ** 970] is not converted and the integer before it
    is. *)
Theorem income_overflow_escapes :
  income_issues_of_int (2 ^ 1024) = Raise OverflowError
  ∧ (∀ handler : result (list fstring),
       try_except (Raise OverflowError) handler = Raise OverflowError)
  ∧ (∀ z, income_issues_of_int z = Raise OverflowError
          ↔ within_float (VInt z) = false)
  ∧ (∀ z, within_float (VInt z) = true →
          income_issues_of_int z = income_issues (VInt z)
          ∧ ∃ issues, income_issues (VInt z) = Ok issues)
  ∧ within_float (VInt (2 ^ 1024 - 2 ^ 970 - 1)) = true
  ∧ within_float (VInt (2 ^ 1024 - 2 ^ 970)) = false.
Proof.
  split_and!.
  - by vm_compute.
  - done.
  - intros z. pose proof (income_issues_of_int_cases z) as H.
    unfold within_float. destruct (float_of_int z) as [x|e].
    + rewrite H. destruct (income_issues_total (VInt z)) as [l ->].
      split; discriminate.
    + done.
  - intros z Hz. pose proof (income_issues_of_int_cases z) as H.
    unfold within_float in Hz. destruct (float_of_int z) as [x|e]; [|done].
    split; [done|]. apply income_issues_total.
  - by vm_compute.
  - by vm_compute.
Qed.

(** ** A column that is absent *)



(** The identifier pass has recorded a failure when the pass of the first
    names finds no column. *)
Example failures_stay_after_a_raise :
  ∃ st, run_all_validations (init ids_only)
        = (st, Raise (KeyError "first_name"))
        ∧ failures st
          = [ {| row := 3; column := "customer_id";
                 issues := [[Lit "7 (duplicate ID)"]] |} ]
        ∧ main ids_only = Raise (KeyError "first_name").
Proof.
  assert (run_all_validations (init ids_only)
          = (extend (init ids_only) (failures_of_run ids_only),
             Raise (KeyError "first_name"))) as Hrun
    by (by rewrite run_all_validations_eq).
  eexists. split; [exact Hrun|]. split; [by vm_compute|].
  unfold main. by rewrite Hrun.
Qed.


(** ** The severity tally *)

Lemma count_missing_counter T entry t :
  counter T (count_missing t entry)
  = counter T t + share T (MissingValue entry.1) (Z.max 0 entry.2).
Proof.
  destruct entry as [col missing]. unfold count_missing, share, tier_of.
  cbn [fst snd].
  assert (Z.max 0 missing = if 0 <? missing then missing else 0) as ->.
  { destruct (0 <? missing) eqn:Hm;
      [apply Z.ltb_lt in Hm | apply Z.ltb_ge in Hm]; lia. }
  destruct (decide (col = "customer_id")) as [-> | Hne].
  - rewrite (bool_decide_eq_false_2 ("customer_id" ∈ _)) by set_solver.
    rewrite (bool_decide_eq_true_2 ("customer_id" ∈ _)) by set_solver.
    destruct (0 <? missing), T; simpl; lia.
  - rewrite (bool_decide_eq_false_2 (col ∈ ["customer_id"])) by set_solver.
    destruct (0 <? missing); [|destruct T; simpl; lia].
    case_bool_decide; destruct T; simpl; lia.
Qed.

Lemma count_missing_fold T completeness :
  ∀ t, counter T (foldl count_missing t completeness)
       = counter T t + missing_share T completeness.
Proof.
  induction completeness as [|entry completeness IH]; intros t; simpl.
  - lia.
  - rewrite IH, count_missing_counter. lia.
Qed.

Lemma missing_share_nonneg T completeness : 0 ≤ missing_share T completeness.
Proof.
  induction completeness as [|entry completeness IH]; simpl; [done|].
  unfold share at 1. case_decide; lia.
Qed.

Lemma generate_report_severity_counter T completeness fi u
    invalid_values categorical_issues :
  counter T (generate_report_severity completeness fi u invalid_values
               categorical_issues)
  = share T DuplicateId (Z.max 0 (duplicates u))
    + share T DateFormat (count_of (date_of_birth_issues fi)
                          + count_of (created_date_issues fi))
    + share T InvalidValue (count_of invalid_values)
    + share T CategoricalValidity (count_of categorical_issues)
    + missing_share T completeness.
Proof.
  unfold generate_report_severity. rewrite count_missing_fold.
  f_equal. unfold share, count_of.
  destruct (date_of_birth_issues fi), (created_date_issues fi),
    invalid_values, categorical_issues, (0 <? duplicates u) eqn:Hd, T;
    simpl;
    first [apply Z.ltb_lt in Hd | apply Z.ltb_ge in Hd]; lia.
Qed.

(** C5: the three counters of the tally are never negative, and the
    count of each kind of defect (duplicate identifiers, missing values
    of a column, date-format issues, invalid values, categorical issues)
    is added to the counter of the tier of the defect and to no other. *)
Theorem severity_tally_tiers T completeness fi u invalid_values
    categorical_issues :
  let t := generate_report_severity completeness fi u invalid_values
             categorical_issues in
  0 ≤ counter T t
  ∧ counter T t
    = share T DuplicateId (Z.max 0 (duplicates u))
      + share T DateFormat (count_of (date_of_birth_issues fi)
                            + count_of (created_date_issues fi))
      + share T InvalidValue (count_of invalid_values)
      + share T CategoricalValidity (count_of categorical_issues)
      + missing_share T completeness.
Proof.
  intros t. subst t. rewrite generate_report_severity_counter.
  split; [|done].
  pose proof (missing_share_nonneg T completeness).
  unfold share, count_of. repeat case_decide; lia.
Qed.

(** The counters of the tally that [main] computes are never negative. *)
Corollary main_severity_nonneg year df t :
  main_severity year df = Ok t →
  0 ≤ critical t ∧ 0 ≤ high t ∧ 0 ≤ medium t.
Proof.
  unfold main_severity.
  destruct (analyze_format_issues df) as [fi|]; [|done].
  destruct (analyze_uniqueness df) as [u|]; [|done].
  destruct (analyze_invalid_values year df) as [inv|]; [|done].
  destruct (analyze_categorical_validity df) as [cat|]; [|done].
  cbn [mbind result_bind bind]. intros [= <-].
  pose proof (λ T, generate_report_severity_counter T
                     (analyze_completeness df) fi u inv cat) as H.
  pose proof (λ T, missing_share_nonneg T (analyze_completeness df)) as Hm.
  pose proof (H Critical) as Hc. pose proof (H High) as Hh.
  pose proof (H Medium) as Hmed. pose proof (Hm Critical).
  pose proof (Hm High). pose proof (Hm Medium).
  unfold share, count_of in *. simpl in *. lia.
Qed.

(** ** Changing one value of a data frame *)

Lemma lookup_column_set_cell df column idx v c :
  lookup_column c (columns (set_cell df column idx v))
  = (λ values, if decide (c = column) then <[idx := v]> values else values)
      <$> lookup_column c (columns df).
Proof.
  unfold set_cell; simpl.
  induction (columns df) as [|[name vs] cs IH]; simpl; [done|].
  destruct (decide (name = column)) as [-> | Hn]; simpl.
  - destruct (decide (column = c)) as [<- | Hc]; simpl.
    + by rewrite decide_True by done.
    + apply IH.
  - destruct (decide (name = c)) as [<- | Hc]; simpl.
    + by rewrite decide_False by done.
    + apply IH.
Qed.



Lemma set_cell_wf df column idx v : df_wf df → df_wf (set_cell df column idx v).
Proof.
  intros [Hlen Hnd]. split; simpl.
  - rewrite Forall_forall in Hlen. apply Forall_forall.
    intros c (c' & -> & Hc')%list_elem_of_fmap.
    case_decide; simpl; [rewrite length_insert|]; by apply Hlen.
  - replace ((map _ (columns df)).*1) with ((columns df).*1); [done|].
    clear. induction (columns df) as [|c cs IH]; simpl; [done|].
    f_equal; [by case_decide | done].
Qed.

Lemma set_cell_required df column idx v :
  has_required_columns df → has_required_columns (set_cell df column idx v).
Proof.
  unfold has_required_columns. intros H.
  eapply Forall_impl; [exact H|]. intros c [vs Hvs]. cbv beta.
  rewrite lookup_column_set_cell, Hvs. by eexists.
Qed.


Lemma elem_of_collect {A B} (body : nat → A → list B) l y :
  ∀ start,
    y ∈ collect body start l
    ↔ ∃ k a, l !! k = Some a ∧ y ∈ body (start + k)%nat a.
Proof.
  induction l as [|a l IH]; intros start; simpl.
  - rewrite elem_of_nil. split; [done|]. by intros (k & b & Hk & _).
  - rewrite elem_of_app, IH. split.
    + intros [Hy | (k & b & Hk & Hy)].
      * exists 0%nat, a. by rewrite Nat.add_0_r.
      * exists (S k), b. split; [done|].
        by replace (start + S k)%nat with (S start + k)%nat by lia.
    + intros ([|k] & b & Hk & Hy); simpl in Hk.
      * injection Hk as ->. left. by rewrite Nat.add_0_r in Hy.
      * right. exists k, b. split; [done|].
        by replace (S start + k)%nat with (start + S k)%nat by lia.
Qed.

(** *** Missing values *)

Lemma missing_of_cons n v values :
  missing_of (S n) (v :: values) = missing_of n values + vacancy v.
Proof.
  unfold missing_of, count_notna, count_empty, vacancy, present.
  rewrite !filter_cons.
  destruct v as [|z|s]; cbn [notna isna negb andb];
    repeat case_decide; repeat case_bool_decide;
    try done; try congruence; cbn [length]; lia.
Qed.



Lemma analyze_completeness_eq df :
  analyze_completeness df
  = map (λ c, (c.1, missing_of (len df) c.2)) (columns df).
Proof. reflexivity. Qed.



(** *** The tally after a change of one value *)


Ltac split_analyses H :=
  unfold main_severity, analyze_format_issues, analyze_uniqueness,
    analyze_invalid_values, analyze_categorical_validity in H |- *;
  repeat
    match type of H with
    | context [getitem ?d ?c] =>
        let E := fresh "E" in
        destruct (getitem d c) eqn:E; [|discriminate H]
    end;
  cbn [mbind result_bind bind] in H |- *.




(** ** One income value changed *)




(** ** Account status in another case *)


Lemma chars_text l : chars (text l) = l.
Proof. apply list_ascii_of_string_of_list_ascii. Qed.

Lemma text_chars s : text (chars s) = s.
Proof. apply string_of_list_ascii_of_string. Qed.

Lemma lstrip_by_Forall p l :
  Forall (λ c, p c = false) l → lstrip_by p l = l.
Proof. destruct 1 as [|c l Hc _]; simpl; [done|]. by rewrite Hc. Qed.

Lemma strip_no_space s :
  Forall (λ c, isspace c = false) (chars s) → strip s = s.
Proof.
  intros H. unfold strip, strip_by. rewrite (lstrip_by_Forall _ _ H).
  rewrite lstrip_by_Forall by (by apply Forall_rev).
  by rewrite rev_involutive, text_chars.
Qed.




(** ** The properties on a small data frame *)

Lemma sample_wf : df_wf sample.
Proof.
  split.
  - repeat constructor.
  - apply (bool_decide_unpack _). by vm_compute.
Defined.



Lemma three_equal_ids_witness :
  ∃ st, validate_customer_id (init three_fives) = (st, Ok ())
        ∧ failures st
          = [ {| row := 3; column := "customer_id";
                 issues := [[Lit "5 (duplicate ID)"]] |};
              {| row := 4; column := "customer_id";
                 issues := [[Lit "5 (duplicate ID)"]] |} ]
        ∧ ∀ f, f ∈ failures st → row f ≠ 2%nat.
Proof. apply (three_equal_ids three_fives). reflexivity. Defined.

Lemma present_ids_are_seen_witness :
  ∃ st seen,
    customer_id_loop (init malformed_twice) = ((st, seen), Ok ())
    ∧ (∀ v, v ∈ seen ↔ v ∈ [VStr "abc"; VStr "abc"] ∧ notna v = true)
    ∧ (∀ f, f ∈ failures st
            ↔ ∃ k v, [VStr "abc"; VStr "abc"] !! k = Some v
                     ∧ f ∈ failure_at "customer_id" k
                             (id_issues_at [VStr "abc"; VStr "abc"] k v)).
Proof. apply (present_ids_are_seen malformed_twice). reflexivity. Defined.

Lemma one_failure_per_record_and_field_witness :
  ints_within_float two_rules_each = true
  ∧ run_all_validations (init two_rules_each) = (two_rules_run, Ok ())
  ∧ (NoDup (key <$> failures two_rules_run)
     ∧ (∀ column values idx v,
          column ∈ required_columns →
          getitem two_rules_each column = Ok values →
          values !! idx = Some v →
          filter (λ f, key f = ((idx + 2)%nat, column))
            (failures two_rules_run)
          = match violations column (take idx values) v with
            | [] => []
            | issues =>
                [{| row := idx + 2; column := column; issues := issues |}]
            end)
     ∧ (∀ f, f ∈ failures two_rules_run →
             ∃ values idx v,
               column f ∈ required_columns
               ∧ getitem two_rules_each (column f) = Ok values
               ∧ values !! idx = Some v
               ∧ row f = (idx + 2)%nat))
  ∧ filter (λ f, key f = (3%nat, "first_name")) (failures two_rules_run)
    = [ {| row := 3; column := "first_name";
           issues := [ [Lit "'7' (too short, min 2 chars)"];
                       [Lit "'7' (should be alphabetic)"] ] |} ]
  ∧ filter (λ f, key f = (3%nat, "customer_id")) (failures two_rules_run)
    = [ {| row := 3; column := "customer_id";
           issues := [ [Lit "-5 (should be positive)"];
                       [Lit "-5 (duplicate ID)"] ] |} ].
Proof.
  assert (run_all_validations (init two_rules_each) = (two_rules_run, Ok ()))
    as Hrun by (vm_compute; reflexivity).
  pose proof (one_failure_per_record_and_field two_rules_each two_rules_run
                eq_refl Hrun) as H.
  split; [reflexivity|]. split; [exact Hrun|]. split; [exact H|].
  destruct H as (_ & H & _). split.
  - apply (H "first_name" [VStr "Ann"; VStr "7"] 1%nat (VStr "7"));
      [by apply (bool_decide_unpack _) | reflexivity | reflexivity].
  - apply (H "customer_id" [VInt (-5); VInt (-5)] 1%nat (VInt (-5)));
      [by apply (bool_decide_unpack _) | reflexivity | reflexivity].
Defined.


Lemma date_rule_examples_witness :
  ∃ self' new,
    validate_date "date_of_birth" (init sample) = (self', Ok ())
    ∧ failures self' = (failures (init sample) ++ new)%list
    ∧ (∃ fmt0 fmt1 t,
         formats !! 0%nat = Some fmt0 ∧ formats !! 1%nat = Some fmt1
         ∧ strptime "1990/01/15" fmt0 = Raise ValueError
         ∧ strptime "1990/01/15" fmt1 = Ok t)
    ∧ (∀ idx, [VStr "1990/01/15"; VStr "invalid_date"; VStr "1985-07-30"]
                !! idx = Some (VStr "1990/01/15") →
              ∀ f, f ∈ new → row f ≠ (idx + 2)%nat)
    ∧ (∀ idx, [VStr "1990/01/15"; VStr "invalid_date"; VStr "1985-07-30"]
                !! idx = Some (VStr "invalid_date") →
              {| row := idx + 2; column := "date_of_birth";
                 issues := [sentinel_issue] |} ∈ new
              ∧ ∀ f, f ∈ new → row f = (idx + 2)%nat →
                     issues f = [sentinel_issue]
                     ∧ [Lit ("'" ++ "invalid_date"
                              ++ "' (unrecognized date format)")]
                       ∉ issues f).
Proof.
  apply (date_rule_examples (init sample) "date_of_birth"). reflexivity.
Defined.



(** * Further properties *)

(** ** A run from any validator *)



(** ** The report *)














(** ** The number of issues of a failure *)

Lemma customer_id_checks_le v :
  (length (issues_of customer_id_checks v) ≤ 1)%nat.
Proof.
  unfold issues_of, customer_id_checks.
  destruct (isna v); [done|].
  destruct (int v) as [z|[]]; cbn; try lia. destruct (z <=? 0); cbn; lia.
Qed.

Lemma customer_id_issues_le seen v :
  (length (customer_id_issues seen v) ≤ 2)%nat.
Proof.
  unfold customer_id_issues. rewrite length_app.
  pose proof (customer_id_checks_le v).
  destruct (notna v && bool_decide (v ∈ seen)); cbn [length]; lia.
Qed.

Lemma name_issues_le v : (length (issues_of name_issues v) ≤ 2)%nat.
Proof.
  unfold issues_of, name_issues. destruct (blank v); [cbn; lia|].
  rewrite length_app.
  repeat match goal with |- context [if ?b then _ else _] => destruct b end;
    cbn; lia.
Qed.

Lemma email_issues_le v : (length (issues_of email_issues v) ≤ 1)%nat.
Proof.
  unfold issues_of, email_issues. destruct (blank v); [cbn; lia|].
  destruct (negb _); cbn; lia.
Qed.

Lemma phone_issues_le v : (length (issues_of phone_issues v) ≤ 1)%nat.
Proof.
  unfold issues_of, phone_issues. destruct (blank v); [cbn; lia|].
  case_bool_decide; cbn; lia.
Qed.

Lemma date_issues_le v : (length (issues_of date_issues v) ≤ 1)%nat.
Proof.
  unfold issues_of, date_issues. destruct (blank v); [cbn; lia|].
  case_decide; [cbn; lia|].
  destruct (try_formats_total (strip (str v)) formats) as [b ->].
  destruct b; cbn; lia.
Qed.

Lemma address_issues_le v : (length (issues_of address_issues v) ≤ 1)%nat.
Proof.
  unfold issues_of, address_issues. destruct (blank v); [cbn; lia|].
  repeat match goal with |- context [if ?b then _ else _] => destruct b end;
    cbn; lia.
Qed.

Lemma income_issues_le v : (length (issues_of income_issues v) ≤ 1)%nat.
Proof.
  unfold issues_of, income_issues. destruct (isna v); [cbn; lia|].
  destruct (float v) as [x|[]]; cbn; try lia.
  repeat match goal with |- context [if ?b then _ else _] => destruct b end;
    cbn; lia.
Qed.

Lemma account_status_issues_le v :
  (length (issues_of account_status_issues v) ≤ 1)%nat.
Proof.
  unfold issues_of, account_status_issues. destruct (blank v); [cbn; lia|].
  case_bool_decide; cbn; lia.
Qed.

(** X5: every failure of a complete run carries one issue or two, and a
    failure of a column other than [customer_id], [first_name] and
    [last_name] carries exactly one. *)
Theorem issues_per_failure df st :
  run_all_validations (init df) = (st, Ok ()) →
  Forall (λ f, (1 ≤ length (issues f) ≤ 2)%nat
               ∧ (column f ∉ ["customer_id"; "first_name"; "last_name"] →
                  length (issues f) = 1%nat))
    (failures st).
Proof.
  intros [_ ->]%run_all_validations_ok. apply Forall_forall. intros f.
  cbn [extend init failures app]. unfold all_failures.
  rewrite elem_of_app, list_elem_of_bind.
  assert (∀ l : list fstring, l ≠ [] → (1 ≤ length l)%nat) as Hpos.
  { intros [|??] ?; [done|cbn; lia]. }
  intros [Hf|[[c r] [Hf Hr]]].
  - apply elem_of_flagged_ids in Hf as (k & v & _ & Hne & ->).
    cbn [issues Validation.column]. split.
    + split; [by apply Hpos|apply customer_id_issues_le].
    + intros Hc. exfalso. apply Hc. left.
  - apply elem_of_flagged in Hf as (k & v & _ & Hne & ->).
    cbn [issues Validation.column fst snd] in *.
    apply Hpos in Hne. unfold value_rules in Hr.
    repeat (apply elem_of_cons in Hr as [[= -> ->]|Hr]);
      [..|by apply elem_of_nil in Hr].
    all: pose proof (name_issues_le v); pose proof (email_issues_le v);
      pose proof (phone_issues_le v); pose proof (date_issues_le v);
      pose proof (address_issues_le v); pose proof (income_issues_le v);
      pose proof (account_status_issues_le v).
    all: split; [lia|].
    all: try (intros _; lia).
    all: intros Hc; exfalso; apply Hc; set_solver.
Qed.

(** ** The date formats *)

Lemma match_classes_Some ps :
  ∀ l m r,
    match_classes ps l = Some (m, r) →
    l = (m ++ r)%list ∧ Forall2 (λ p c, p c = true) ps m.
Proof.
  induction ps as [|p ps IH]; intros l m r H.
  - destruct l; simplify_eq/=; by split.
  - destruct l as [|c l]; [done|]. cbn [match_classes] in H.
    destruct (p c) eqn:Hp; [|done].
    destruct (match_classes ps l) as [[m' r']|] eqn:E; [|done].
    simplify_eq. destruct (IH _ _ _ E) as [-> ?]. split; [done|].
    by constructor.
Qed.

Lemma elem_of_matches_cons d fmt t l x :
  x ∈ matches (d :: fmt) t l
  ↔ ∃ ps m l', ps ∈ alternatives d ∧ match_classes ps l = Some (m, l')
               ∧ x ∈ matches fmt (store d m t) l'.
Proof.
  cbn [matches]. rewrite list_elem_of_In, in_concat. split.
  - intros (y & Hy & Hx). apply in_map_iff in Hy as (ps & <- & Hps).
    destruct (match_classes ps l) as [[m l']|] eqn:E; [|done].
    exists ps, m, l'. by rewrite !list_elem_of_In.
  - intros (ps & m & l' & Hps & E & Hx). eexists. split.
    + apply in_map_iff. exists ps. split; [done|].
      by apply list_elem_of_In.
    + cbn beta. rewrite E. by apply list_elem_of_In.
Qed.

Lemma classes_accept ps m c :
  Forall2 (λ p c, p c = true) ps m → c ∈ m →
  existsb (λ p : ascii → bool, p c) ps = true.
Proof.
  induction 1 as [|p c' ps m Hp _ IH]; intros Hc.
  - by apply elem_of_nil in Hc.
  - cbn [existsb]. apply elem_of_cons in Hc as [->|Hc].
    + by rewrite Hp.
    + rewrite IH by done. apply orb_true_r.
Qed.

(** What a match consumes is made of characters of the format. *)
Lemma matches_consumed fmt :
  ∀ t l x,
    x ∈ matches fmt t l →
    ∃ m, l = (m ++ x.2)%list ∧ Forall (λ c, format_char fmt c = true) m.
Proof.
  induction fmt as [|d fmt IH]; intros t l x Hx.
  - apply list_elem_of_singleton in Hx as ->. by exists [].
  - apply elem_of_matches_cons in Hx as (ps & m & l' & Hps & Hm & Hx).
    apply match_classes_Some in Hm as [-> Hm].
    destruct (IH _ _ _ Hx) as (m' & -> & Hm').
    exists (m ++ m')%list. split; [by rewrite app_assoc|].
    apply Forall_app. split.
    + apply Forall_forall. intros c Hc. unfold format_char.
      cbn [existsb]. apply orb_true_iff. left.
      apply existsb_exists. exists ps. split; [by apply list_elem_of_In|].
      by apply (classes_accept ps m).
    + eapply Forall_impl; [exact Hm'|]. intros c Hc.
      unfold format_char in *. cbn [existsb]. rewrite Hc.
      apply orb_true_r.
Qed.

Lemma strptime_Ok s fmt t :
  strptime s fmt = Ok t →
  (t, []) ∈ matches fmt {| year := 1900; month := 1; day := 1 |} (chars s).
Proof.
  unfold strptime.
  destruct (matches fmt _ (chars s)) as [|[t' [|c r]] ms]; try done.
  destruct (valid_date t'); [|done]. intros [= ->]. left.
Qed.

Lemma parses_chars s fmt :
  parses s fmt → Forall (λ c, format_char fmt c = true) (chars s).
Proof.
  intros [t Ht%strptime_Ok]. apply matches_consumed in Ht as (m & Hm & H).
  cbn [snd] in Hm. rewrite app_nil_r in Hm. by rewrite Hm.
Qed.

Lemma contains_char c s : contains (String c EmptyString) s = true ↔ c ∈ chars s.
Proof.
  unfold contains. change (chars (String c EmptyString)) with [c].
  induction (chars s) as [|x l IH]; cbn [contains_from].
  - case_decide as H; [by apply prefix_nil_inv in H|].
    split; [done|]. by intros ?%elem_of_nil.
  - case_decide as H.
    + destruct H as [k [= -> ->]]. split; [|done]. intros _. left.
    + rewrite IH, elem_of_cons. split; [by right|].
      intros [->|?]; [|done]. destruct H. by exists l.
Qed.

Lemma iso_has_no_slash s : parses s iso_format → contains "/" s = false.
Proof.
  intros H%parses_chars. apply not_true_is_false.
  intros Hc%contains_char. rewrite Forall_forall in H.
  specialize (H _ Hc). by vm_compute in H.
Qed.

(** The first two directives of the formats that begin with the year. *)
Lemma matches_year_first sep fmt t l x :
  x ∈ matches (DY :: DChar sep :: fmt) t l →
  ∃ c1 c2 c3 c4 l',
    l = c1 :: c2 :: c3 :: c4 :: sep :: l'
    ∧ Forall (λ c, is_decimal c = true) [c1; c2; c3; c4]
    ∧ x ∈ matches fmt (store DY [c1; c2; c3; c4] t) l'.
Proof.
  intros (ps & m & l1 & Hps & Hm & Hx)%elem_of_matches_cons.
  apply list_elem_of_singleton in Hps as ->.
  apply match_classes_Some in Hm as [-> Hm].
  apply elem_of_matches_cons in Hx as (ps & m' & l2 & Hps & Hm' & Hx).
  apply list_elem_of_singleton in Hps as ->.
  apply match_classes_Some in Hm' as [-> Hm'].
  repeat match goal with
         | H : Forall2 _ (_ :: _) _ |- _ =>
             apply Forall2_cons_inv_l in H as (? & ? & ? & ? & ->)
         | H : Forall2 _ [] _ |- _ => apply Forall2_nil_inv_l in H as ->
         end.
  unfold is_char in *.
  match goal with H : bool_decide _ = true |- _ =>
    apply bool_decide_eq_true in H as -> end.
  do 5 eexists. split; [reflexivity|]. split; [|exact Hx].
  by repeat constructor.
Qed.

Lemma one_to_nine_decimal c : one_to_nine c = true → is_decimal c = true.
Proof.
  unfold one_to_nine, is_decimal, in_range.
  rewrite !andb_true_iff, !N.leb_le. lia.
Qed.

(** The first two directives of the format that begins with the month. *)
Lemma matches_month_first sep fmt t l x :
  x ∈ matches (Dm :: DChar sep :: fmt) t l →
  ∃ c l', is_decimal c = true
          ∧ (l = c :: sep :: l'
             ∨ ∃ c', is_decimal c' = true ∧ l = c :: c' :: sep :: l').
Proof.
  intros (ps & m & l1 & Hps & Hm & Hx)%elem_of_matches_cons.
  apply match_classes_Some in Hm as [-> Hm].
  apply elem_of_matches_cons in Hx as (ps' & m' & l2 & Hps' & Hm' & Hx).
  apply list_elem_of_singleton in Hps' as ->.
  apply match_classes_Some in Hm' as [-> Hm'].
  cbn [alternatives] in Hps.
  repeat (apply elem_of_cons in Hps as [->|Hps]);
    [..|by apply elem_of_nil in Hps].
  all: repeat match goal with
         | H : Forall2 _ (_ :: _) _ |- _ =>
             apply Forall2_cons_inv_l in H as (? & ? & ? & ? & ->)
         | H : Forall2 _ [] _ |- _ => apply Forall2_nil_inv_l in H as ->
         end.
  all: unfold is_char in *.
  all: repeat match goal with H : bool_decide _ = true |- _ =>
         apply bool_decide_eq_true in H as -> end.
  - eexists "1"%char, _. split; [done|]. right. eexists. split; [|done].
    match goal with H : in_range 48 50 ?c = true |- _ =>
      revert H; unfold is_decimal, in_range;
      rewrite !andb_true_iff, !N.leb_le; lia end.
  - eexists "0"%char, _. split; [done|]. right. eexists. split; [|done].
    by apply one_to_nine_decimal.
  - eexists _, _. split; [by apply one_to_nine_decimal|]. by left.
Qed.

Lemma decimal_not_slash c : is_decimal c = true → c ≠ "/"%char.
Proof. by intros H ->. Qed.

(** X6: no text is accepted by [strptime] under two of the three formats
    of [validate_date]: a date that parses has one reading only, and the
    order in which the loop tries the formats does not matter. *)
Theorem date_formats_exclude_each_other s fmt1 fmt2 :
  fmt1 ∈ formats → fmt2 ∈ formats → fmt1 ≠ fmt2 →
  parses s fmt1 → ¬ parses s fmt2.
Proof.
  assert (∀ s, parses s ymd_slash_format → parses s mdy_slash_format → False)
    as H23.
  { clear. intros s [t1 H1%strptime_Ok] [t2 H2%strptime_Ok].
    apply matches_year_first in H1 as (c1 & c2 & c3 & c4 & l' & E & Hd & _).
    apply matches_month_first in H2 as (c & l2 & Hc & [E'|(c' & Hc' & E')]).
    all: rewrite E in E'; simplify_eq.
    all: repeat match goal with H : Forall _ (_ :: _) |- _ =>
           apply Forall_cons in H as [? H] end.
    all: by eapply decimal_not_slash. }
  assert (∀ s fmt, fmt = ymd_slash_format ∨ fmt = mdy_slash_format →
                   parses s iso_format → parses s fmt → False) as H1.
  { clear. intros s fmt Hfmt Hiso%iso_has_no_slash [t Ht%strptime_Ok].
    apply not_true_iff_false in Hiso. apply Hiso, contains_char.
    destruct Hfmt as [-> | ->].
    - apply matches_year_first in Ht as (? & ? & ? & ? & ? & -> & _).
      set_solver.
    - apply matches_month_first in Ht as (? & ? & _ & [->|(? & _ & ->)]);
        set_solver. }
  unfold formats. fold iso_format ymd_slash_format mdy_slash_format.
  intros Hf1 Hf2 Hne Hp1 Hp2.
  repeat (apply elem_of_cons in Hf1 as [->|Hf1]);
    [..|by apply elem_of_nil in Hf1].
  all: repeat (apply elem_of_cons in Hf2 as [->|Hf2]);
    [..|by apply elem_of_nil in Hf2].
  all: try done.
  all: eauto.
Qed.

Lemma try_formats_parses s fmts :
  try_formats s fmts
  = Ok (bool_decide (Exists (parses s) fmts)).
Proof.
  induction fmts as [|fmt fmts IH]; cbn [try_formats].
  - by rewrite bool_decide_eq_false_2 by (by intros ?%Exists_nil).
  - destruct (strptime s fmt) as [t|e] eqn:E; cbn.
    + rewrite bool_decide_eq_true_2; [done|]. left. by exists t.
    + apply strptime_raises in E as Ee. subst e. rewrite IH. f_equal.
      apply bool_decide_ext. rewrite Exists_cons.
      split; [by right|]. intros [[t Ht]|?]; [|done].
      rewrite E in Ht. discriminate Ht.
Qed.

(** What the date rule has found when it reports nothing. *)
Lemma date_issues_accepts v :
  date_issues v = Ok [] →
  blank v = false ∧ strip (str v) ≠ "invalid_date"
  ∧ Exists (parses (strip (str v))) formats.
Proof.
  unfold date_issues. destruct (blank v); [done|].
  case_decide as Hl; [done|]. rewrite try_formats_parses.
  cbn [mbind result_bind bind]. case_bool_decide as Hp; [|done].
  intros _. split_and!; [done| |done].
  intros Hs. apply Hl. by rewrite Hs.
Qed.

Lemma not_blank_present v : blank v = false → present v = true.
Proof.
  unfold blank, present, notna. intros [-> Hs]%orb_false_iff. cbn [negb andb].
  apply bool_decide_eq_false in Hs. apply bool_decide_eq_true.
  by intros ->.
Qed.

Lemma parses_slash_first_digit s :
  parses s ymd_slash_format ∨ parses s mdy_slash_format →
  contains "/" s = true ∧ first_isdigit s = true.
Proof.
  assert (∀ c, is_decimal c = true → isdigit c = true) as Hd.
  { intros c Hc. unfold isdigit. by rewrite Hc. }
  unfold first_isdigit. rewrite contains_char.
  intros [[t Ht%strptime_Ok]|[t Ht%strptime_Ok]].
  - apply matches_year_first in Ht as (? & ? & ? & ? & ? & -> & Hf & _).
    apply Forall_cons in Hf as [? _]. split; [set_solver|by apply Hd].
  - apply matches_month_first in Ht as (? & ? & ? & [->|(? & _ & ->)]);
      (split; [set_solver|by apply Hd]).
Qed.

(** X7: a value that the date rule of [validate_date] accepts either
    parses as [%Y-%m-%d], and [analyze_format_issues] reports nothing for
    it in either date column, or it parses under one of the two slash
    formats, and [analyze_format_issues] reports it in both columns, as
    YYYY/MM/DD format for a date of birth and as MM/DD/YYYY format for a
    created date, whichever of the two slash formats it has. *)
Theorem accepted_dates_and_format_issues idx v :
  date_issues v = Ok [] →
  (parses (strip (str v)) iso_format
   ∧ dob_format_issue idx v = [] ∧ created_format_issue idx v = [])
  ∨ ((parses (strip (str v)) ymd_slash_format
      ∨ parses (strip (str v)) mdy_slash_format)
     ∧ dob_format_issue idx v
       = [[Lit (row_label idx ++ ": " ++ strip (str v)
                ++ " (YYYY/MM/DD format)")]]
     ∧ created_format_issue idx v
       = [[Lit (row_label idx ++ ": " ++ strip (str v)
                ++ " (MM/DD/YYYY format)")]]).
Proof.
  intros (Hb%not_blank_present & Hs & Hp)%date_issues_accepts.
  unfold dob_format_issue, created_format_issue. rewrite Hb.
  rewrite !decide_False by done.
  unfold formats in Hp. fold iso_format ymd_slash_format mdy_slash_format in Hp.
  rewrite !Exists_cons, Exists_nil in Hp.
  destruct Hp as [Hp|Hp].
  - left. by rewrite (iso_has_no_slash _ Hp).
  - right. assert (parses (strip (str v)) ymd_slash_format
                   ∨ parses (strip (str v)) mdy_slash_format) as Hp'
      by tauto.
    destruct (parses_slash_first_digit _ Hp') as [-> ->]. done.
Qed.

Lemma accepted_dates_and_format_issues_witness :
  (parses (strip (str (VStr "01/15/1990"))) iso_format
   ∧ dob_format_issue 0 (VStr "01/15/1990") = []
   ∧ created_format_issue 0 (VStr "01/15/1990") = [])
  ∨ ((parses (strip (str (VStr "01/15/1990"))) ymd_slash_format
      ∨ parses (strip (str (VStr "01/15/1990"))) mdy_slash_format)
     ∧ dob_format_issue 0 (VStr "01/15/1990")
       = [[Lit (row_label 0 ++ ": " ++ strip (str (VStr "01/15/1990"))
                ++ " (YYYY/MM/DD format)")]]
     ∧ created_format_issue 0 (VStr "01/15/1990")
       = [[Lit (row_label 0 ++ ": " ++ strip (str (VStr "01/15/1990"))
                ++ " (MM/DD/YYYY format)")]]).
Proof.
  apply (accepted_dates_and_format_issues 0 (VStr "01/15/1990")).
  vm_compute. reflexivity.
Defined.

Lemma date_formats_exclude_each_other_witness :
  ¬ parses "1990/01/15" iso_format.
Proof.
  apply (date_formats_exclude_each_other "1990/01/15" ymd_slash_format).
  - constructor 2. constructor 1.
  - constructor 1.
  - discriminate.
  - eexists. vm_compute. reflexivity.
Defined.

(** ** Text that is only white space *)

Lemma isspace_facts c :
  isspace c = true →
  is_decimal c = false ∧ lower_char c = c
  ∧ c ∉ ["-"; "+"; "."; "_"; "i"; "n"]%char.
Proof.
  destruct c as [[] [] [] [] [] [] [] []]; vm_compute; try discriminate.
  all: intros _; split_and!; try reflexivity.
  all: intros H; repeat (apply elem_of_cons in H as [H|H]; [discriminate|]).
  all: by apply elem_of_nil in H.
Qed.

Lemma lstrip_by_suffix p l : lstrip_by p l `suffix_of` l.
Proof.
  induction l as [|c l IH]; cbn [lstrip_by]; [done|].
  destruct (p c); [by apply suffix_cons_r|done].
Qed.

Lemma strip_by_Forall (P : ascii → Prop) p l :
  Forall P l → Forall P (strip_by p l).
Proof.
  intros H. unfold strip_by. apply Forall_rev.
  destruct (lstrip_by_suffix p (rev (lstrip_by p l))) as [k Hk].
  destruct (lstrip_by_suffix p l) as [k' Hk'].
  rewrite Hk' in H. apply Forall_app in H as [_ H].
  apply Forall_rev in H. rewrite Hk in H. by apply Forall_app in H as [_ H].
Qed.

Lemma lstrip_by_all p l : Forall (λ c, p c = true) l → lstrip_by p l = [].
Proof. induction 1 as [|c l Hc _ IH]; cbn [lstrip_by]; [done|by rewrite Hc]. Qed.

Lemma strip_all_space s :
  Forall (λ c, isspace c = true) (chars s) → strip s = EmptyString.
Proof.
  intros H. unfold strip, strip_by. by rewrite (lstrip_by_all _ _ H).
Qed.

Lemma Forall_filter_keep {A} (P Q : A → Prop) `{∀ x, Decision (Q x)} l :
  Forall P l → Forall P (filter Q l).
Proof.
  rewrite !Forall_forall. intros HP x [_ Hx]%list_elem_of_filter. auto.
Qed.

Lemma int_of_space s :
  Forall (λ c, isspace c = true) (chars s) → int_of_str s = Raise ValueError.
Proof.
  intros H. unfold int_of_str.
  apply (strip_by_Forall _ num_space) in H.
  destruct (underscores_ok None _); [|done].
  apply (Forall_filter_keep _ (λ c, c ≠ "_"%char)) in H.
  fold (drop_underscores (strip_by num_space (chars s))) in H.
  destruct (drop_underscores _) as [|c l]; [done|].
  apply Forall_cons in H as [(Hd & _ & Hc)%isspace_facts _].
  cbn [split_sign]. rewrite !decide_False by set_solver.
  cbn [all_digits forallb]. by rewrite Hd.
Qed.

Lemma float_of_space s :
  Forall (λ c, isspace c = true) (chars s) → float_of_str s = Raise ValueError.
Proof.
  intros H. unfold float_of_str.
  apply (strip_by_Forall _ num_space) in H.
  destruct (underscores_ok None _); [|done].
  apply (Forall_filter_keep _ (λ c, c ≠ "_"%char)) in H.
  fold (drop_underscores (strip_by num_space (chars s))) in H.
  destruct (drop_underscores _) as [|c l]; [done|].
  apply Forall_cons in H as [(Hd & Hl & Hc)%isspace_facts _].
  cbn [split_sign]. rewrite !decide_False by set_solver.
  cbn [map text string_of_list_ascii]. rewrite Hl.
  rewrite decide_False by (intros [[=]|[=]]; set_solver).
  rewrite decide_False by (intros [=]; set_solver).
  unfold parse_decimal. cbn [span_digits]. rewrite Hd.
  rewrite decide_False by set_solver. done.
Qed.

(** X8: for a text cell made of white space only, the rules of the name,
    email, phone, date and address columns report the issue Empty, and the
    rule of the account status its own Empty issue; the rules of [income]
    and [customer_id] do not: they report the text as not numeric and as
    not an integer.  [analyze_categorical_validity] reports the cell as a
    missing value, while [analyze_completeness] counts it as present
    unless it is the empty text. *)
Theorem white_space_cells idx s :
  Forall (λ c, isspace c = true) (chars s) →
  Forall (λ rule, rule (VStr s) = Ok [empty_issue])
    [name_issues; email_issues; phone_issues; date_issues; address_issues]
  ∧ account_status_issues (VStr s)
    = Ok [[Lit "Empty (should be one of: active, inactive, suspended)"]]
  ∧ income_issues (VStr s) = Ok [[Lit ("'" ++ s ++ "' (should be numeric)")]]
  ∧ customer_id_checks (VStr s) = Ok [[Lit (s ++ " (should be integer)")]]
  ∧ categorical_issue idx (VStr s)
    = [[Lit (row_label idx ++ ": Empty (missing value)")]]
  ∧ (s ≠ EmptyString → vacancy (VStr s) = 0).
Proof.
  intros H. pose proof (strip_all_space s H) as Hs.
  assert (blank (VStr s) = true) as Hb.
  { unfold blank. cbn [isna str orb]. by rewrite Hs. }
  split_and!.
  - repeat constructor;
      unfold name_issues, email_issues, phone_issues, date_issues,
        address_issues; by rewrite Hb.
  - unfold account_status_issues. by rewrite Hb.
  - unfold income_issues. cbn [isna float str].
    by rewrite (float_of_space s H).
  - unfold customer_id_checks. cbn [isna int str].
    by rewrite (int_of_space s H).
  - unfold categorical_issue. cbn [notna isna negb andb orb str]. rewrite Hs.
    done.
  - intros Hne. unfold vacancy, present. cbn [notna isna negb andb].
    rewrite bool_decide_eq_true_2; [done|]. by intros [=].
Qed.

Lemma white_space_cells_witness :
  Forall (λ rule, rule (VStr "  ") = Ok [empty_issue])
    [name_issues; email_issues; phone_issues; date_issues; address_issues]
  ∧ account_status_issues (VStr "  ")
    = Ok [[Lit "Empty (should be one of: active, inactive, suspended)"]]
  ∧ income_issues (VStr "  ")
    = Ok [[Lit ("'" ++ "  " ++ "' (should be numeric)")]]
  ∧ customer_id_checks (VStr "  ")
    = Ok [[Lit ("  " ++ " (should be integer)")]]
  ∧ categorical_issue 0 (VStr "  ")
    = [[Lit (row_label 0 ++ ": Empty (missing value)")]]
  ∧ ("  " ≠ EmptyString → vacancy (VStr "  ") = 0).
Proof. apply (white_space_cells 0 "  "). by repeat constructor. Defined.

(** ** The columns of the quality analysis *)

(** X9: the analyses that [main] of [data_quality.py] runs read six
    columns by name, in the order phone, date_of_birth, created_date,
    customer_id, income, account_status: they raise the [KeyError] of the
    first of these that the frame lacks, and return the tally when the
    frame has all six, whatever other columns it lacks. *)
Theorem main_severity_reads_six_columns year df :
  match first_missing_in quality_columns df with
  | Some c => main_severity year df = Raise (KeyError c)
  | None => ∃ t, main_severity year df = Ok t
  end.
Proof.
  unfold main_severity, analyze_format_issues, analyze_uniqueness,
    analyze_invalid_values, analyze_categorical_validity, getitem,
    quality_columns.
  cbn [first_missing_in].
  repeat
    match goal with
    | |- context [first_missing_in _ _] => cbn [first_missing_in]
    | |- match match lookup_column ?c ?cs with _ => _ end with _ => _ end =>
        destruct (lookup_column c cs) eqn:?; [|reflexivity]
    end.
  cbn [mbind result_bind bind]. by eexists.
Qed.

(** ** Missing values and the critical counter *)

Lemma missing_of_vacant values :
  missing_of (length values) values = Z.of_nat (length (vacant values)).
Proof.
  induction values as [|v values IH]; [done|].
  cbn [length]. rewrite missing_of_cons, IH. unfold vacant, vacancy.
  rewrite filter_cons. destruct (present v); case_decide; try done;
    cbn [length]; lia.
Qed.

(** X10: for a well-formed frame [analyze_completeness] has one entry for
    each column, in the order of the columns, and the missing count of a
    column is the number of its cells that are [NaN] or the empty text,
    a number between zero and the number of records. *)
Theorem analyze_completeness_counts df :
  df_wf df →
  (analyze_completeness df).*1 = (columns df).*1
  ∧ ∀ name missing,
      (name, missing) ∈ analyze_completeness df →
      ∃ values, lookup_column name (columns df) = Some values
                ∧ missing = Z.of_nat (length (vacant values))
                ∧ 0 ≤ missing ≤ Z.of_nat (len df).
Proof.
  intros Hwf. rewrite analyze_completeness_eq. split.
  - clear. induction (columns df) as [|[??] ? IH]; [done|].
    cbn [map fmap list_fmap fst]. f_equal. exact IH.
  - intros name missing Hin. apply list_elem_of_In, in_map_iff in Hin
      as ([name' values] & Heq & Hc%list_elem_of_In).
    cbn [fst snd] in Heq. injection Heq as -> <-. exists values.
    destruct Hwf as [Hlen Hnd]. pose proof Hc as Hl.
    rewrite Forall_forall in Hlen. apply Hlen in Hl. cbn [snd] in Hl.
    unfold len. rewrite <- Hl, missing_of_vacant. split_and!.

    + clear -Hc Hnd. induction (columns df) as [|[c w] cs IH];
        [by apply elem_of_nil in Hc|].
      cbn [lookup_column]. apply NoDup_cons in Hnd as [Hnot Hnd].
      apply elem_of_cons in Hc as [[= <- <-]|Hc].
      * by rewrite decide_True.
      * rewrite decide_False; [by apply IH|].
        intros ->. apply Hnot. cbn [fmap list_fmap].
        apply list_elem_of_fmap. by exists (name, values).
    + done.
    + lia.
    + pose proof (length_filter (λ v, present v = false) values).
      unfold vacant. lia.
Qed.

Lemma missing_share_critical df ids :
  df_wf df → lookup_column "customer_id" (columns df) = Some ids →
  missing_share Critical (analyze_completeness df)
  = Z.of_nat (length (vacant ids)).
Proof.
  intros [Hlen Hnd] Hc. rewrite analyze_completeness_eq. unfold len.
  set (n := index_len df) in *. clearbody n.
  induction (columns df) as [|[name vs] cs IH]; [done|].
  apply Forall_cons in Hlen as [Hvs Hlen].
  apply NoDup_cons in Hnd as [Hnot Hnd]. cbn [lookup_column] in Hc.
  cbn [map missing_share foldr fst snd] in *.
  fold (missing_share Critical (map (λ c, (c.1, missing_of n c.2)) cs)).
  unfold share at 1, tier_of.
  destruct (decide (name = "customer_id")) as [->|Hn].
  - injection Hc as ->.
    rewrite decide_True by done. subst n. rewrite missing_of_vacant.
    assert (missing_share Critical
              (map (λ c, (c.1, missing_of (length ids) c.2)) cs) = 0) as ->.
    { clear -Hnot. induction cs as [|[c w] cs IH]; [done|].
      cbn [fmap list_fmap fst] in Hnot.
      apply not_elem_of_cons in Hnot as [Hc Hnot].
      cbn [map missing_share foldr fst snd].
      fold (missing_share Critical
              (map (λ c, (c.1, missing_of (length ids) c.2)) cs)).
      rewrite (IH Hnot). unfold share, tier_of.
      rewrite (decide_False (P := c = "customer_id")) by done.
      by rewrite decide_False. }
    lia.
  - rewrite decide_False by done. by rewrite IH.
Qed.

Lemma foldl_see_union values :
  ∀ seen,
    foldl see seen values
    = seen ∪ list_to_set (filter (λ v, notna v = true) values).
Proof.
  intros seen. apply set_eq. intros v.
  rewrite elem_of_foldl_see, elem_of_union, elem_of_list_to_set,
    list_elem_of_filter. tauto.
Qed.

(** The distinct present identifiers and the repeats make up the present
    identifiers. *)
Lemma size_seen_repeats values :
  ∀ seen,
    (size (foldl see seen values) + repeats seen values
     = size seen + length (filter (λ v, notna v = true) values))%nat.
Proof.
  induction values as [|v values IH]; intros seen; [cbn; lia|].
  cbn [foldl repeats]. rewrite filter_cons. specialize (IH (see seen v)).
  unfold see in *. destruct (notna v) eqn:Hv; cbn [andb].
  - rewrite decide_True by done. cbn [length]. case_bool_decide as Hin.
    + assert ({[v]} ∪ seen = seen) as Heq by set_solver.
      rewrite Heq in IH |- *. lia.
    + rewrite size_union, size_singleton in IH by set_solver. lia.
  - rewrite decide_False by (by intros ?). lia.
Qed.

Lemma nunique_repeats values :
  nunique values + Z.of_nat (repeats ∅ values)
  = Z.of_nat (length (filter (λ v, notna v = true) values)).
Proof.
  pose proof (size_seen_repeats values ∅) as H.
  rewrite foldl_see_union, size_empty, (left_id_L ∅ (∪)) in H.
  unfold nunique. lia.
Qed.

Lemma duplicates_repeats values :
  Z.of_nat (length values) - nunique values
  = Z.of_nat (length (filter (λ v, isna v = true) values))
    + Z.of_nat (repeats ∅ values).
Proof.
  pose proof (nunique_repeats values).
  assert (length (filter (λ v, isna v = true) values)
          + length (filter (λ v, notna v = true) values)
          = length values)%nat as Hs.
  { clear. induction values as [|v values IH]; [done|].
    rewrite !filter_cons. unfold notna in *.
    destruct (isna v); cbn [negb]; repeat case_decide; try done;
      cbn [length]; lia. }
  lia.
Qed.

Lemma repeats_zero values :
  ∀ seen,
    Forall (λ v, notna v = true) values →
    repeats seen values = 0%nat
    ↔ NoDup values ∧ ∀ v, v ∈ values → v ∉ seen.
Proof.
  induction values as [|v values IH]; intros seen Hall.
  - split; [|done]. intros _. split; [constructor|].
    by intros ? ?%elem_of_nil.
  - apply Forall_cons in Hall as [Hv Hall]. cbn [repeats].
    rewrite NoDup_cons. unfold see. rewrite Hv. cbn [andb].
    specialize (IH ({[v]} ∪ seen) Hall). case_bool_decide as Hin.
    + split; [lia|]. intros [_ H]. destruct (H v); [left|done].
    + cbn [Nat.add]. rewrite IH. split.
      * intros [Hnd H]. split; [split; [|done]|].
        -- intros Hvin. apply (H v Hvin). set_solver.
        -- intros w [->|Hw]%elem_of_cons; [done|].
           specialize (H w Hw). set_solver.
      * intros [[Hnot Hnd] H]. split; [done|].
        intros w Hw. specialize (H w (list_elem_of_further _ _ _ Hw)). set_solver.
Qed.

(** X11: the critical counter of the tally is twice the number of missing
    identifiers, plus the number of identifiers that are the empty text,
    plus the number of identifiers that repeat a present one of an earlier
    record: a [NaN] identifier is counted among the duplicates and again
    among the missing values.  The counter is zero exactly when every
    identifier is present and no two are equal. *)
Theorem critical_counts_identifiers year df ids t :
  df_wf df → getitem df "customer_id" = Ok ids →
  main_severity year df = Ok t →
  critical t
  = 2 * Z.of_nat (length (filter (λ v, isna v = true) ids))
    + Z.of_nat (length (filter (λ v, v = VStr EmptyString) ids))
    + Z.of_nat (repeats ∅ ids)
  ∧ (critical t = 0
     ↔ NoDup ids ∧ Forall (λ v, present v = true) ids).
Proof.
  intros Hwf Hids Hrun.
  assert (lookup_column "customer_id" (columns df) = Some ids) as Hlook.
  { unfold getitem in Hids. by destruct (lookup_column _ _); simplify_eq. }
  assert (critical t
          = Z.of_nat (length ids) - nunique ids
            + Z.of_nat (length (vacant ids))) as Hcrit.
  { split_analyses Hrun. injection Hrun as <-.
    change (critical ?x) with (counter Critical x).
    rewrite generate_report_severity_counter.
    rewrite (missing_share_critical df ids Hwf Hlook).
    rewrite Hids in *. simplify_eq. cbn [duplicates].
    unfold share, tier_of.
    rewrite decide_True by done. rewrite !decide_False by done.
    pose proof (duplicates_repeats ids). lia. }
  assert (length (vacant ids)
          = (length (filter (λ v, isna v = true) ids)
             + length (filter (λ v, v = VStr EmptyString) ids))%nat) as Hvac.
  { unfold vacant. clear. induction ids as [|v ids IH]; [done|].
    rewrite !filter_cons.
    assert (present v = false
            ↔ isna v = true ∨ v = VStr EmptyString) as Hp.
    { unfold present, notna. destruct v as [|z|s]; cbn [isna negb andb].
      - naive_solver.
      - rewrite bool_decide_eq_false. naive_solver.
      - rewrite bool_decide_eq_false. split; [|naive_solver].
        intros H. right. by destruct (decide (VStr s = VStr EmptyString)). }
    assert (isna v = true → v ≠ VStr EmptyString) by (by intros ? ->).
    repeat case_decide; cbn [length]; try lia; tauto. }
  split.
  - rewrite Hcrit, duplicates_repeats, Hvac. lia.
  - rewrite Hcrit, duplicates_repeats. split.
    + intros H0.
      assert (vacant ids = []) as Hv by (apply length_zero_iff_nil; lia).
      assert (Forall (λ v, present v = true) ids) as Hall.
      { apply Forall_forall. intros v Hin.
        destruct (present v) eqn:Hp; [done|].
        assert (v ∈ vacant ids) as Hin'
          by (by apply list_elem_of_filter).
        rewrite Hv in Hin'. by apply elem_of_nil in Hin'. }
      split; [|done].
      apply (repeats_zero ids ∅).
      * eapply Forall_impl; [exact Hall|]. intros v.
        unfold present. by intros [? _]%andb_true_iff.
      * lia.
    + intros [Hnd Hall].
      assert (Forall (λ v, notna v = true) ids) as Hna.
      { eapply Forall_impl; [exact Hall|]. intros v.
        unfold present. by intros [? _]%andb_true_iff. }
      assert (repeats ∅ ids = 0%nat) as ->
        by (apply repeats_zero; [done|split; [done|set_solver]]).
      assert (vacant ids = []) as ->.
      { unfold vacant. clear -Hall. induction Hall as [|v ids Hv _ IH];
          [done|].
        rewrite filter_cons, decide_False by congruence. exact IH. }
      assert (filter (λ v, isna v = true) ids = []) as ->.
      { clear -Hna. induction Hna as [|v ids Hv _ IH]; [done|].
        rewrite filter_cons, decide_False; [exact IH|].
        unfold notna in Hv. by destruct (isna v). }
      done.
Qed.

(** ** Duplicates in the two modules *)

Lemma chars_app a b : chars (a ++ b) = (chars a ++ chars b)%list.
Proof.
  unfold chars. induction a as [|c a IH]; [done|].
  simpl. by rewrite IH.
Qed.

Lemma checks_are_not_duplicates v :
  ¬ Exists duplicate_issue (issues_of customer_id_checks v).
Proof.
  assert (∀ x tail,
            (∃ c r, rev (chars tail) = ")"%char :: c :: r
                    ∧ c ≠ "D"%char) →
            ¬ duplicate_issue [Lit (x ++ tail)]) as Hno.
  { intros x tail (c & r & Hr & Hc) [k Hk]. rewrite chars_app in Hk.
    apply (f_equal (@rev ascii)) in Hk. rewrite !rev_app_distr, Hr in Hk.
    cbn in Hk. by simplify_eq. }
  assert (∀ x tail,
            (∃ c r, rev (chars tail) = ")"%char :: c :: r
                    ∧ c ≠ "D"%char) →
            ¬ Exists duplicate_issue [[Lit (x ++ tail)]]) as Hno'.
  { intros x tail Ht [H|H%Exists_nil]%Exists_cons; [|done].
    by apply (Hno x tail). }
  unfold issues_of, customer_id_checks. destruct (isna v).
  - apply (Hno' EmptyString "Empty (should be non-empty)").
    do 2 eexists. split; [reflexivity|discriminate].
  - destruct (int v) as [z|[]]; cbn [try_except mbind result_bind bind].
    + destruct (z <=? 0); [|by intros ?%Exists_nil].
      apply (Hno' (str v) " (should be positive)").
      do 2 eexists. split; [reflexivity|discriminate].
    + by intros ?%Exists_nil.
    + apply (Hno' (str v) " (should be integer)").
      do 2 eexists. split; [reflexivity|discriminate].
    + apply (Hno' (str v) " (should be integer)").
      do 2 eexists. split; [reflexivity|discriminate].
    + by intros ?%Exists_nil.
Qed.

Lemma duplicate_customer_id_issue seen v :
  Exists duplicate_issue (customer_id_issues seen v)
  ↔ notna v && bool_decide (v ∈ seen) = true.
Proof.
  unfold customer_id_issues. rewrite Exists_app.
  pose proof (checks_are_not_duplicates v).
  destruct (notna v && bool_decide (v ∈ seen)).
  - split; [done|]. intros _. right. left. exists (chars (str v)).
    by rewrite chars_app.
  - rewrite Exists_nil. split; [tauto|done].
Qed.

Lemma count_flagged_duplicates values :
  ∀ seen start,
    length (filter flagged_duplicate (flagged_ids seen start values))
    = repeats seen values.
Proof.
  induction values as [|v values IH]; intros seen start; [done|].
  cbn [flagged_ids repeats]. rewrite filter_app, length_app, IH. f_equal.
  pose proof (duplicate_customer_id_issue seen v) as Hd.
  unfold failure_at. destruct (customer_id_issues seen v) as [|i l] eqn:E.
  - rewrite Exists_nil in Hd. destruct (notna v && _); [|done].
    by destruct Hd as [_ []].
  - rewrite filter_cons, filter_nil. unfold flagged_duplicate at 1.
    cbn [issues]. destruct (notna v && _); case_decide; try done.
    + destruct H. by apply Hd.
    + destruct Hd as [Hd _]. by specialize (Hd ltac:(assumption)).
Qed.

(** X12: the number of duplicates that [analyze_uniqueness] computes is
    the number of [NaN] identifiers plus the number of failures of
    [validate_customer_id] that carry the issue of a duplicate. *)
Theorem duplicate_counts_agree df ids :
  getitem df "customer_id" = Ok ids →
  ∃ u st,
    analyze_uniqueness df = Ok u
    ∧ validate_customer_id (init df) = (st, Ok ())
    ∧ duplicates u
      = Z.of_nat (length (filter (λ v, isna v = true) ids))
        + Z.of_nat (length (filter flagged_duplicate (failures st))).
Proof.
  intros Hids. unfold analyze_uniqueness. rewrite Hids.
  rewrite validate_customer_id_eq. unfold getitem in Hids.
  cbn [Validation.df init].
  destruct (lookup_column "customer_id" (columns df)) as [ids'|];
    [|done].
  injection Hids as ->. do 2 eexists. split_and!; [done..|].
  cbn [duplicates extend init failures app].
  by rewrite count_flagged_duplicates, duplicates_repeats.
Qed.

Lemma duplicate_counts_agree_witness :
  ∃ u st,
    analyze_uniqueness sample = Ok u
    ∧ validate_customer_id (init sample) = (st, Ok ())
    ∧ duplicates u
      = Z.of_nat (length (filter (λ v, isna v = true)
                            [VInt 1; VInt 2; VInt 2]))
        + Z.of_nat (length (filter flagged_duplicate (failures st))).
Proof. apply (duplicate_counts_agree sample). reflexivity. Defined.

Lemma critical_counts_identifiers_witness :
  critical sample_tally
  = 2 * Z.of_nat (length (filter (λ v, isna v = true)
                            [VInt 1; VInt 2; VInt 2]))
    + Z.of_nat (length (filter (λ v, v = VStr EmptyString)
                          [VInt 1; VInt 2; VInt 2]))
    + Z.of_nat (repeats ∅ [VInt 1; VInt 2; VInt 2])
  ∧ (critical sample_tally = 0
     ↔ NoDup [VInt 1; VInt 2; VInt 2]
       ∧ Forall (λ v, present v = true) [VInt 1; VInt 2; VInt 2]).
Proof.
  apply (critical_counts_identifiers 2026 sample).
  - exact sample_wf.
  - reflexivity.
  - vm_compute. reflexivity.
Defined.

Lemma analyze_completeness_counts_witness :
  (analyze_completeness sample).*1 = (columns sample).*1
  ∧ ∀ name missing,
      (name, missing) ∈ analyze_completeness sample →
      ∃ values, lookup_column name (columns sample) = Some values
                ∧ missing = Z.of_nat (length (vacant values))
                ∧ 0 ≤ missing ≤ Z.of_nat (len sample).
Proof. apply (analyze_completeness_counts sample). exact sample_wf. Defined.

(** ** The year of a date of birth *)

Lemma decimal_facts c :
  is_decimal c = true →
  num_space c = false ∧ isspace c = false
  ∧ c ∉ ["-"; "+"; "_"; "i"]%char.
Proof.
  destruct c as [[] [] [] [] [] [] [] []]; vm_compute; try discriminate.
  all: intros _; split_and!; try reflexivity.
  all: intros H; repeat (apply elem_of_cons in H as [H|H]; [discriminate|]).
  all: by apply elem_of_nil in H.
Qed.

Lemma strip_by_none p l :
  Forall (λ c, p c = false) l → strip_by p l = l.
Proof.
  intros H. unfold strip_by. rewrite (lstrip_by_Forall _ _ H).
  rewrite lstrip_by_Forall by (by apply Forall_rev).
  apply rev_involutive.
Qed.

Lemma lstrip_by_snoc p l c :
  p c = false → lstrip_by p (l ++ [c]) = (lstrip_by p l ++ [c])%list.
Proof.
  intros Hc. induction l as [|x l IH]; cbn [lstrip_by app].
  - by rewrite Hc.
  - destruct (p x); [exact IH|done].
Qed.

(** Stripping keeps a first character that is not white space. *)
Lemma strip_by_head p c l :
  p c = false → ∃ l', strip_by p (c :: l) = c :: l'.
Proof.
  intros Hc. unfold strip_by. cbn [lstrip_by]. rewrite Hc.
  cbn [rev]. rewrite (lstrip_by_snoc _ _ _ Hc), rev_app_distr.
  by eexists.
Qed.

Lemma int_of_four_digits c1 c2 c3 c4 :
  Forall (λ c, is_decimal c = true) [c1; c2; c3; c4] →
  int_of_str (text [c1; c2; c3; c4]) = Ok (group_val [c1; c2; c3; c4]).
Proof.
  intros H. unfold int_of_str, group_val. rewrite chars_text.
  assert (Forall (λ c, num_space c = false ∧ c ≠ "_"%char
                       ∧ c ≠ "-"%char ∧ c ≠ "+"%char
                       ∧ is_decimal c = true) [c1; c2; c3; c4]) as H'.
  { eapply Forall_impl; [exact H|]. intros c Hc.
    destruct (decimal_facts c Hc) as (? & _ & Hn). set_solver. }
  rewrite strip_by_none
    by (eapply Forall_impl; [exact H'|]; by intros c [? _]).
  repeat (apply Forall_cons in H' as [(_ & ? & ? & ? & ?) H']).
  cbn [underscores_ok]. rewrite !decide_False by done.
  unfold drop_underscores. rewrite !filter_cons, !filter_nil.
  rewrite !decide_True by done. cbn [split_sign].
  rewrite !decide_False by done. cbn [all_digits forallb].
  by repeat match goal with H : is_decimal _ = true |- _ => rewrite H end.
Qed.

Lemma matches_keep_year fmt :
  DY ∉ fmt →
  ∀ t l x, x ∈ matches fmt t l → year x.1 = year t.
Proof.
  induction fmt as [|d fmt IH]; intros Hd t l x Hx.
  - by apply list_elem_of_singleton in Hx as ->.
  - apply not_elem_of_cons in Hd as [Hd Hfmt].
    apply elem_of_matches_cons in Hx as (ps & m & l' & _ & _ & Hx).
    rewrite (IH Hfmt _ _ _ Hx). by destruct d.
Qed.

Lemma before_char_digits sep c1 c2 c3 c4 l :
  Forall (λ c, c ≠ sep) [c1; c2; c3; c4] →
  before_char sep (c1 :: c2 :: c3 :: c4 :: sep :: l) = [c1; c2; c3; c4].
Proof.
  intros H. repeat (apply Forall_cons in H as [? H]).
  cbn [before_char]. rewrite !decide_False by done. by rewrite decide_True.
Qed.

Lemma age_issue_by_format current_year idx s :
  (∀ t, strptime s iso_format = Ok t →
        contains "-" s = true
        ∧ age_issue current_year idx (VStr s)
          = if 150 <? current_year - year t
            then [[Lit (row_label idx ++ ": age = "
                        ++ str_of_Z (current_year - year t)
                        ++ " (unrealistic)")]]
            else [])
  ∧ (parses s ymd_slash_format ∨ parses s mdy_slash_format →
     contains "-" s = false
     ∧ age_issue current_year idx (VStr s) = []).
Proof.
  split.
  - intros t Ht%strptime_Ok.
    apply matches_year_first in Ht as (c1 & c2 & c3 & c4 & l' & Hs & Hd & Ht).
    apply matches_keep_year in Ht; [|set_solver]. cbn [fst store year] in Ht.
    assert (Forall (λ c, c ≠ "-"%char) [c1; c2; c3; c4]) as Hsep.
    { eapply Forall_impl; [exact Hd|]. intros c Hc.
      destruct (decimal_facts c Hc) as (_ & _ & Hn). set_solver. }
    pose proof Hd as Hd'. apply Forall_cons in Hd' as [Hc1 _].
    destruct (decimal_facts c1 Hc1) as (_ & Hsp & Hn).
    unfold age_issue. cbn [notna isna negb andb str].
    destruct (strip_by_head isspace c1 (c2 :: c3 :: c4 :: "-"%char :: l') Hsp)
      as [r Hr].
    assert (strip s ∉ [EmptyString; "invalid_date"]) as Hstrip.
    { unfold strip. rewrite Hs, Hr. intros Hin.
      apply elem_of_cons in Hin as [Hin|Hin]; [discriminate Hin|].
      apply elem_of_cons in Hin as [Hin|Hin]; [|by apply elem_of_nil in Hin].
      injection Hin as -> _. set_solver. }
    rewrite bool_decide_eq_true_2 by done.
    assert (contains "-" s = true) as Hdash
      by (apply contains_char; rewrite Hs; set_solver).
    split; [done|]. rewrite Hdash.
    unfold split_first. rewrite Hs, (before_char_digits _ _ _ _ _ _ Hsep).
    rewrite (int_of_four_digits _ _ _ _ Hd).
    cbn [mbind result_bind bind try_except_all]. rewrite Ht.
    by destruct (150 <? _).
  - intros Hp. unfold age_issue. cbn [notna isna negb andb str].
    assert (contains "-" s = false) as Hdash.
    { apply not_true_is_false. intros Hc%contains_char.
      destruct Hp as [Hp%parses_chars|Hp%parses_chars];
        rewrite Forall_forall in Hp; specialize (Hp _ Hc);
        by vm_compute in Hp. }
    split; [done|]. rewrite Hdash. by destruct (bool_decide _).
Qed.

(** X13: let [strptime] accept a text under one of the formats of
    [validate_date].  The text contains a hyphen exactly when the format
    is [%Y-%m-%d]; for such a text the year that the age check of
    [analyze_invalid_values] reads before the first hyphen is the year
    [strptime] finds, and the check reports the record when the current
    year exceeds it by more than 150.  For a text in a slash format the
    check reports nothing, whatever the year. *)
Theorem age_check_reads_the_parsed_year current_year idx s fmt t :
  fmt ∈ formats → strptime s fmt = Ok t →
  (contains "-" s = true ↔ fmt = iso_format)
  ∧ age_issue current_year idx (VStr s)
    = if contains "-" s && (150 <? current_year - year t)
      then [[Lit (row_label idx ++ ": age = "
                  ++ str_of_Z (current_year - year t) ++ " (unrealistic)")]]
      else [].
Proof.
  intros Hfmt Ht.
  destruct (age_issue_by_format current_year idx s) as [Hiso Hslash].
  unfold formats in Hfmt.
  fold iso_format ymd_slash_format mdy_slash_format in Hfmt.
  apply elem_of_cons in Hfmt as [->|Hfmt].
  - destruct (Hiso t Ht) as [Hd ->]. by rewrite Hd.
  - assert (parses s ymd_slash_format ∨ parses s mdy_slash_format) as Hp.
    { repeat (apply elem_of_cons in Hfmt as [->|Hfmt]);
        [left|right|by apply elem_of_nil in Hfmt]; by exists t. }
    destruct (Hslash Hp) as [Hd ->]. rewrite Hd. split; [|done].
    split; [done|]. intros ->.
    repeat (apply elem_of_cons in Hfmt as [Hfmt|Hfmt]; [discriminate|]).
    by apply elem_of_nil in Hfmt.
Qed.

Lemma age_check_reads_the_parsed_year_witness :
  (contains "-" "1850-01-01" = true ↔ iso_format = iso_format)
  ∧ age_issue 2026 0 (VStr "1850-01-01")
    = if contains "-" "1850-01-01" && (150 <? 2026 - 1850)
      then [[Lit (row_label 0 ++ ": age = "
                  ++ str_of_Z (2026 - 1850) ++ " (unrealistic)")]]
      else [].
Proof.
  apply (age_check_reads_the_parsed_year 2026 0 "1850-01-01" iso_format
           {| year := 1850; month := 1; day := 1 |}).
  - constructor 1.
  - vm_compute. reflexivity.
Defined.

(** ** Phone numbers after cleaning *)

Lemma lstrip_by_head p l :
  lstrip_by p l = [] ∨ ∃ c r, lstrip_by p l = c :: r ∧ p c = false.
Proof.
  induction l as [|c l IH]; cbn [lstrip_by]; [by left|].
  destruct (p c) eqn:Hc; [exact IH|]. right. by exists c, l.
Qed.

Lemma lstrip_by_fixed p l :
  (l = [] ∨ ∃ c r, l = c :: r ∧ p c = false) → lstrip_by p l = l.
Proof. intros [->|(c & r & -> & Hc)]; cbn [lstrip_by]; [done|by rewrite Hc]. Qed.

Lemma strip_by_idemp p l : strip_by p (strip_by p l) = strip_by p l.
Proof.
  unfold strip_by. set (a := lstrip_by p l).
  set (b := lstrip_by p (rev a)).
  assert (lstrip_by p (rev b) = rev b) as ->.
  { apply lstrip_by_fixed. destruct (rev b) as [|c r] eqn:Hb; [by left|].
    right. exists c, r. split; [done|].
    destruct (lstrip_by_suffix p (rev a)) as [k Hk]. fold b in Hk.
    apply (f_equal (@rev ascii)) in Hk.
    rewrite rev_involutive, rev_app_distr, Hb in Hk.
    destruct (lstrip_by_head p l) as [Ha|(c' & r' & Ha & Hc')]; fold a in Ha;
      rewrite Ha in Hk; [done|]. by injection Hk as -> _. }
  rewrite rev_involutive. f_equal. apply lstrip_by_fixed, lstrip_by_head.
Qed.

Lemma strip_idemp s : strip (strip s) = strip s.
Proof. unfold strip. by rewrite chars_text, strip_by_idemp. Qed.

Lemma filter_all {A} (P : A → Prop) `{∀ x, Decision (P x)} l :
  Forall P l → filter P l = l.
Proof.
  induction 1 as [|x l Hx _ IH]; [done|].
  by rewrite filter_cons, decide_True, IH.
Qed.

Lemma digits_of_decimal s : Forall (λ c, is_decimal c = true) (Cleaning.digits_of s).
Proof.
  apply Forall_forall. intros c Hc.
  by apply list_elem_of_filter in Hc as [? _].
Qed.

Lemma dashed_chars d :
  length d = 10%nat → Forall (λ c, is_decimal c = true) d →
  Cleaning.digits_of (Cleaning.dashed d) = d
  ∧ strip (Cleaning.dashed d) = Cleaning.dashed d
  ∧ Cleaning.dashed d ≠ EmptyString.
Proof.
  intros Hlen Hd. unfold Cleaning.digits_of, Cleaning.dashed.
  rewrite chars_text.
  assert (∀ l, Forall (λ c, is_decimal c = true) l →
               filter (λ c, is_decimal c = true) l = l) as Hf
    by (intros l; apply filter_all).
  split_and!.
  - rewrite filter_app, filter_cons, filter_app, filter_cons.
    rewrite !decide_False by (by vm_compute).
    rewrite !Hf by (try apply Forall_take; by repeat apply Forall_drop).
    assert (drop 6 d = drop 3 (drop 3 d)) as -> by (by rewrite drop_drop).
    by rewrite !take_drop.
  - apply strip_no_space. rewrite chars_text.
    assert (∀ l, Forall (λ c, is_decimal c = true) l →
                 Forall (λ c, isspace c = false) l) as Hs.
    { intros l Hl. eapply Forall_impl; [exact Hl|].
      intros c Hc. by destruct (decimal_facts c Hc) as (_ & ? & _). }
    apply Forall_app. split; [by apply Hs, Forall_take|].
    apply Forall_cons. split; [done|].
    apply Forall_app. split; [by apply Hs, Forall_take, Forall_drop|].
    apply Forall_cons. split; [done|]. by apply Hs, Forall_drop.
  - destruct d as [|c d]; [done|]. discriminate.
Qed.

Lemma phone_issues_digits s :
  strip s ≠ EmptyString →
  phone_issues (VStr s) = Ok []
  ↔ length (Cleaning.digits_of (strip s)) = 10%nat.
Proof.
  intros Hs. unfold phone_issues, blank. cbn [isna str orb].
  rewrite bool_decide_eq_false_2 by done.
  fold (Cleaning.digits_of (strip s)).
  case_bool_decide; split; try done; intros; by destruct_and?.
Qed.

Lemma normalize_phone_cases v :
  let digits := Cleaning.digits_of (strip (str v)) in
  Cleaning.normalize_phone (Cleaning.normalize_phone v)
  = Cleaning.normalize_phone v
  ∧ (phone_issues (Cleaning.normalize_phone v) = Ok []
     ↔ blank v = false
       ∧ (length digits = 10%nat
          ∨ length digits = 11%nat ∧ head digits = Some "1"%char)).
Proof.
  intros digits.
  assert (∀ d, length d = 10%nat → Forall (λ c, is_decimal c = true) d →
            Cleaning.normalize_phone (VStr (Cleaning.dashed d))
            = VStr (Cleaning.dashed d)
            ∧ phone_issues (VStr (Cleaning.dashed d)) = Ok []) as Hdash.
  { intros d Hlen Hd. destruct (dashed_chars d Hlen Hd) as (Hdd & Hsd & Hne).
    split.
    - unfold Cleaning.normalize_phone. cbn [isna orb str].
      rewrite bool_decide_eq_false_2 by (by intros [=]).
      rewrite Hsd, Hdd. by rewrite bool_decide_eq_true_2.
    - apply phone_issues_digits; rewrite Hsd; [done|]. by rewrite Hdd. }
  pose proof (digits_of_decimal (strip (str v))) as Hdec. fold digits in Hdec.
  remember (Cleaning.normalize_phone v) as n eqn:Hn.
  unfold Cleaning.normalize_phone in Hn. fold digits in Hn.
  destruct (isna v) eqn:Hna; cbn [orb] in Hn.
  { subst n. unfold Cleaning.normalize_phone. rewrite Hna. cbn [orb].
    split; [done|].
    unfold phone_issues, blank. rewrite Hna. cbn [orb]. by split; [|intros []]. }
  case_bool_decide as He.
  { subst n v. split; [done|]. by split; [|intros []]. }
  assert (blank v = false ↔ strip (str v) ≠ EmptyString) as Hblank.
  { unfold blank. rewrite Hna. cbn [orb]. by rewrite bool_decide_eq_false. }
  case_bool_decide as H10.
  { subst n. destruct (Hdash digits H10 Hdec) as [-> ->]. split; [done|].
    split; [|done]. intros _. split; [|by left].
    apply Hblank. intros Hs. unfold digits in H10. by rewrite Hs in H10. }
  destruct (bool_decide (length digits = 11%nat)
            && bool_decide (head digits = Some "1"%char)) eqn:H11.
  { subst n.
    apply andb_true_iff in H11 as [Hl%bool_decide_eq_true Hh%bool_decide_eq_true].
    destruct (Hdash (drop 1 digits)) as [-> ->].
    - rewrite length_drop. lia.
    - by apply Forall_drop.
    - split; [done|]. split; [|done]. intros _. split; [|by right].
      apply Hblank. intros Hs. unfold digits in Hl. by rewrite Hs in Hl. }
  subst n. split.
  - unfold Cleaning.normalize_phone. cbn [isna orb str].
    rewrite strip_idemp. fold digits.
    rewrite (bool_decide_eq_false_2 _ H10), H11.
    by destruct (bool_decide (VStr _ = _)).
  - destruct (decide (strip (str v) = EmptyString)) as [Hs|Hs].
    + assert (phone_issues (VStr (strip (str v))) = Ok [empty_issue]) as ->.
      { unfold phone_issues, blank. cbn [isna str orb].
        rewrite strip_idemp, Hs. by rewrite bool_decide_eq_true_2. }
      split; [done|]. intros [Hb _]. by apply Hblank in Hb.
    + rewrite phone_issues_digits by (by rewrite strip_idemp).
      rewrite strip_idemp. fold digits. split; [done|].
      intros [_ [?|[Hl Hh]]]; [done|].
      rewrite andb_false_iff, !bool_decide_eq_false in H11. tauto.
Qed.

(** X14: [normalize_phone] changes nothing when applied a second time, and
    the phone rule of [validate_phone] accepts what it returns exactly
    when the value is not blank and has ten digits, or eleven digits of
    which the first is 1. *)
Theorem normalize_phone_and_the_phone_rule v :
  let digits := Cleaning.digits_of (strip (str v)) in
  Cleaning.normalize_phone (Cleaning.normalize_phone v)
  = Cleaning.normalize_phone v
  ∧ (phone_issues (Cleaning.normalize_phone v) = Ok []
     ↔ blank v = false
       ∧ (length digits = 10%nat
          ∨ length digits = 11%nat ∧ head digits = Some "1"%char)).
Proof. exact (normalize_phone_cases v). Qed.

Lemma decimal_not_punctuation c :
  is_decimal c = true →
  isdigit c = true ∧ c ∉ ["-"; "("; ")"; "."]%char.
Proof.
  destruct c as [[] [] [] [] [] [] [] []]; vm_compute; try discriminate.
  all: intros _; split; [reflexivity|].
  all: intros H; repeat (apply elem_of_cons in H as [H|H]; [discriminate|]).
  all: by apply elem_of_nil in H.
Qed.

Lemma contains_false c s : c ∉ chars s → contains (String c EmptyString) s = false.
Proof. intros H. apply not_true_is_false. by rewrite contains_char. Qed.

(** X15: a phone that passes the phone rule after [normalize_phone] is
    labelled XXX-XXX-XXXX by [analyze_format_issues] only when its text
    contains [555-]; any other normalized phone is labelled OTHER. *)
Theorem normalized_phone_format v :
  phone_issues (Cleaning.normalize_phone v) = Ok [] →
  phone_format (str (Cleaning.normalize_phone v))
  = if contains "555-" (str (Cleaning.normalize_phone v))
    then "XXX-XXX-XXXX" else "OTHER".
Proof.
  assert (∀ d, length d = 10%nat → Forall (λ c, is_decimal c = true) d →
            phone_format (Cleaning.dashed d)
            = if contains "555-" (Cleaning.dashed d)
              then "XXX-XXX-XXXX" else "OTHER") as Hdash.
  { intros d Hlen Hd.
    do 10 (destruct d as [|? d]; [discriminate Hlen|]).
    destruct d; [|discriminate Hlen].
    repeat (apply Forall_cons in Hd as [[? ?]%decimal_not_punctuation Hd]).
    unfold phone_format.
    assert (count_char "-" (Cleaning.dashed [a; a0; a1; a2; a3; a4; a5; a6; a7; a8])
            = 2%nat) as ->.
    { unfold count_char, Cleaning.dashed. rewrite chars_text.
      cbn [take drop app]. rewrite !filter_cons, filter_nil.
      repeat case_decide; try done; set_solver. }
    rewrite bool_decide_eq_true_2 by done. rewrite andb_true_r.
    destruct (contains "555-" _); [done|].
    rewrite !contains_false
      by (unfold Cleaning.dashed; rewrite chars_text; cbn [take drop app];
          set_solver).
    cbn [andb].
    assert (str_isdigit (Cleaning.dashed [a; a0; a1; a2; a3; a4; a5; a6; a7; a8])
            = false) as ->; [|done].
    unfold str_isdigit, Cleaning.dashed. rewrite chars_text.
    cbn [take drop app forallb].
    repeat match goal with H : isdigit _ = true |- _ => rewrite H; clear H end.
    reflexivity. }
  pose proof (normalize_phone_cases v) as [_ Hrule].
  cbn zeta in Hrule. intros Hok. apply Hrule in Hok as [Hb Hd]. clear Hrule.
  pose proof (digits_of_decimal (strip (str v))) as Hdec.
  unfold Cleaning.normalize_phone.
  unfold blank in Hb. apply orb_false_iff in Hb as [Hna Hs].
  rewrite Hna. cbn [orb].
  apply bool_decide_eq_false in Hs.
  rewrite bool_decide_eq_false_2 by (by intros ->).
  destruct (decide (length (Cleaning.digits_of (strip (str v))) = 10%nat))
    as [H10|H10].
  { rewrite bool_decide_eq_true_2 by done. by apply Hdash. }
  rewrite (bool_decide_eq_false_2 _ H10).
  destruct Hd as [?|[Hl Hh]]; [done|].
  rewrite !bool_decide_eq_true_2 by done. cbn [andb str].
  apply Hdash; [rewrite length_drop; lia|by apply Forall_drop].
Qed.

Lemma normalized_phone_format_witness :
  phone_format (str (Cleaning.normalize_phone (VStr "(212) 444-1234")))
  = if contains "555-" (str (Cleaning.normalize_phone (VStr "(212) 444-1234")))
    then "XXX-XXX-XXXX" else "OTHER".
Proof.
  apply (normalized_phone_format (VStr "(212) 444-1234")).
  vm_compute. reflexivity.
Defined.

(** ** The emails that are detected and the emails that are valid *)

Lemma email_finding_or_failure idx v :
  (email_finding idx v = [] ∧ issues_of email_issues v ≠ [])
  ∨ (email_finding idx v
     = [{| PiiDetection.row := idx + 2;
           PiiDetection.value := strip (str v) |}]
     ∧ issues_of email_issues v = []).
Proof.
  unfold email_finding, PiiDetection.filled, issues_of, email_issues, blank,
    notna.
  change PiiDetection.email_pattern with email_pattern.
  destruct (isna v); cbn [negb andb orb]; [by left|].
  case_bool_decide; cbn [negb]; [by left|].
  destruct (match_anchored email_pattern _); cbn [negb]; [by right|by left].
Qed.

Lemma length_findings_failures values :
  ∀ start,
    (length (collect email_finding start values)
     + length (flagged "email" (issues_of email_issues) start values)
     = length values)%nat.
Proof.
  induction values as [|v values IH]; intros start; [done|].
  cbn [collect flagged]. rewrite !length_app. specialize (IH (S start)).
  destruct (email_finding_or_failure start v) as [[-> Hi]|[-> ->]].
  - destruct (issues_of email_issues v); [done|]. cbn [failure_at length]. lia.
  - cbn [failure_at length]. lia.
Qed.

(** X16: [detect_emails] finds an email in a record exactly when
    [validate_email] records no failure for the record, so that the
    emails found and the email failures together number the records. *)
Theorem detected_emails_are_the_valid_ones df emails :
  getitem df "email" = Ok emails →
  ∃ found st,
    PiiDetection.detect_emails df = Ok found
    ∧ validate_email (init df) = (st, Ok ())
    ∧ (∀ idx, (idx < length emails)%nat →
         (∃ e, e ∈ found ∧ PiiDetection.row e = (idx + 2)%nat)
         ↔ ¬ ∃ f, f ∈ failures st ∧ row f = (idx + 2)%nat)
    ∧ (length found + length (failures st) = length emails)%nat.
Proof.
  intros Hcol. unfold PiiDetection.detect_emails, validate_email.
  rewrite Hcol, validate_column_eq by auto with rules.
  unfold getitem in Hcol. cbn [Validation.df init].
  destruct (lookup_column "email" (columns df)) as [emails'|]; [|done].
  injection Hcol as ->. cbn [mbind result_bind bind].
  fold email_finding. do 2 eexists. split_and!; [done..| |].
  - cbn [extend init failures app]. intros idx Hidx.
    destruct (lookup_lt_is_Some_2 emails idx Hidx) as [v Hv].
    split.
    + intros (e & He & Hrow) (f & Hf & Hrow').
      apply elem_of_collect in He as (k & a & Hk & He).
      apply elem_of_flagged in Hf as (k' & a' & Hk' & Hne & ->).
      cbn [row] in Hrow'. assert (k' = idx) as -> by lia.
      destruct (email_finding_or_failure (0 + k) a) as [[Ha _]|[Ha Hi]];
        rewrite Ha in He; [by apply elem_of_nil in He|].
      apply list_elem_of_singleton in He as ->. cbn in Hrow.
      assert (k = idx) as -> by lia. by simplify_eq.
    + intros Hno.
      destruct (email_finding_or_failure idx v) as [[_ Hi]|[Hf _]].
      * destruct Hno. eexists. split.
        -- apply elem_of_flagged. by exists idx, v.
        -- done.
      * eexists. split.
        -- apply elem_of_collect. exists idx, v. split; [done|].
           change (0 + idx)%nat with idx. rewrite Hf. left.
        -- done.
  - cbn [extend init failures app]. apply length_findings_failures.
Qed.

Lemma detected_emails_are_the_valid_ones_witness :
  ∃ found st,
    PiiDetection.detect_emails sample = Ok found
    ∧ validate_email (init sample) = (st, Ok ())
    ∧ (∀ idx, (idx < length [VStr "ann@example.com"; VStr "bob@example";
                             VStr "cy@example.org"])%nat →
         (∃ e, e ∈ found ∧ PiiDetection.row e = (idx + 2)%nat)
         ↔ ¬ ∃ f, f ∈ failures st ∧ row f = (idx + 2)%nat)
    ∧ (length found + length (failures st)
       = length [VStr "ann@example.com"; VStr "bob@example";
                 VStr "cy@example.org"])%nat.
Proof. apply (detected_emails_are_the_valid_ones sample). reflexivity. Defined.

(** ** Masking *)

Lemma rsplit1_absent sep l : sep ∉ l → Masking.rsplit1 sep l = [l].
Proof.
  induction l as [|c l IH]; [done|]. intros [Hc Hl]%not_elem_of_cons.
  cbn [Masking.rsplit1]. rewrite (IH Hl). by rewrite decide_False.
Qed.

Lemma rsplit1_last sep before after :
  sep ∉ after →
  Masking.rsplit1 sep (before ++ sep :: after) = [before; after].
Proof.
  intros Ha. induction before as [|c b IH]; cbn [app Masking.rsplit1].
  - rewrite (rsplit1_absent _ _ Ha). by rewrite decide_True.
  - by rewrite IH.
Qed.

Lemma rsplit1_present (sep : ascii) (l : list ascii) :
  sep ∈ l →
  ∃ before after, l = (before ++ sep :: after)%list ∧ sep ∉ after.
Proof.
  induction l as [|c l IH]; [by intros ?%elem_of_nil|]. intros Hin.
  destruct (decide (sep ∈ l)) as [Hl|Hl].
  - destruct (IH Hl) as (b & a & -> & Ha). by exists (c :: b), a.
  - apply elem_of_cons in Hin as [->|?]; [|done]. by exists [], l.
Qed.

Lemma strip_by_stripped p l : stripped p (strip_by p l).
Proof.
  unfold stripped, strip_by. set (a := lstrip_by p l).
  set (b := lstrip_by p (rev a)).
  rewrite rev_involutive. split; [|apply lstrip_by_fixed, lstrip_by_head].
  apply lstrip_by_fixed. destruct (rev b) as [|c r] eqn:Hb; [by left|].
  right. exists c, r. split; [done|].
  destruct (lstrip_by_suffix p (rev a)) as [k Hk]. fold b in Hk.
  apply (f_equal (@rev ascii)) in Hk.
  rewrite rev_involutive, rev_app_distr, Hb in Hk.
  destruct (lstrip_by_head p l) as [Ha|(c' & r' & Ha & Hc')]; fold a in Ha;
    rewrite Ha in Hk; [done|]. by injection Hk as -> _.
Qed.

Lemma stripped_fixed p l : stripped p l → strip_by p l = l.
Proof.
  intros [H1 H2]. unfold strip_by. rewrite H1, H2. apply rev_involutive.
Qed.

Lemma lstrip_by_cons_inv p c l : lstrip_by p (c :: l) = c :: l → p c = false.
Proof.
  cbn [lstrip_by]. destruct (p c); [|done]. intros H.
  destruct (lstrip_by_suffix p l) as [k Hk]. rewrite H in Hk.
  apply (f_equal length) in Hk. rewrite length_app in Hk.
  cbn [length] in Hk. lia.
Qed.

Lemma stripped_head p c l : stripped p (c :: l) → p c = false.
Proof. intros [H _]. by apply lstrip_by_cons_inv in H. Qed.

Lemma stripped_last p l c : stripped p (l ++ [c]) → p c = false.
Proof.
  intros [_ H]. rewrite rev_app_distr in H. by apply lstrip_by_cons_inv in H.
Qed.

Lemma stripped_ends p c l c' :
  p c = false → p c' = false → stripped p (c :: l ++ [c']).
Proof.
  intros Hc Hc'. split.
  - cbn [lstrip_by]. by rewrite Hc.
  - cbn [rev]. rewrite rev_app_distr. cbn [rev app lstrip_by].
    by rewrite Hc'.
Qed.

Lemma strip_stripped s : stripped isspace (chars (strip s)).
Proof. unfold strip. rewrite chars_text. apply strip_by_stripped. Qed.

Lemma strip_of_stripped l : stripped isspace l → strip (text l) = text l.
Proof.
  intros H. unfold strip. rewrite chars_text. f_equal.
  by apply stripped_fixed.
Qed.

Lemma length_chars s : String.length s = length (chars s).
Proof. induction s as [|c s IH]; [done|]. cbn. by rewrite IH. Qed.

Lemma text_inj l1 l2 : text l1 = text l2 → l1 = l2.
Proof. intros H. by rewrite <- (chars_text l1), H, chars_text. Qed.

Lemma mask_name_twice v :
  Masking.mask_name (Masking.mask_name v) = Masking.mask_name v.
Proof.
  remember (Masking.mask_name v) as m eqn:Hm.
  unfold Masking.mask_name in Hm.
  destruct (isna v || _ || _) eqn:Hg.
  { subst m. unfold Masking.mask_name. by rewrite Hg. }
  pose proof (strip_stripped (str v)) as Hs.
  destruct (chars (strip (str v))) as [|c l] eqn:Hc.
  - assert (strip (str v) = EmptyString) as He
      by (by rewrite <- (text_chars (strip (str v))), Hc).
    rewrite He in Hm. by subst m.
  - apply stripped_head in Hs. subst m. unfold Masking.mask_name.
    cbn [isna orb str].
    rewrite !bool_decide_eq_false_2 by (by intros [=]). cbn [orb].
    change (String c "***") with (text (c :: ["*"; "*"]%char ++ ["*"%char])).
    rewrite strip_of_stripped by (by apply stripped_ends).
    by rewrite chars_text.
Qed.

Lemma mask_phone_twice v :
  Masking.mask_phone (Masking.mask_phone v) = Masking.mask_phone v.
Proof.
  remember (Masking.mask_phone v) as m eqn:Hm.
  unfold Masking.mask_phone in Hm.
  destruct (isna v || _) eqn:Hg.
  { subst m. unfold Masking.mask_phone. by rewrite Hg. }
  fold (Cleaning.digits_of (strip (str v))) in Hm.
  set (digits := Cleaning.digits_of (strip (str v))) in *.
  destruct (4 <=? length digits)%nat eqn:H4; [|by subst m].
  apply Nat.leb_le in H4.
  set (last4 := drop (length digits - 4) digits) in *.
  assert (length last4 = 4%nat) as Hl
    by (unfold last4; rewrite length_drop; lia).
  assert (Forall (λ c, is_decimal c = true) last4) as Hd
    by (apply Forall_drop, digits_of_decimal).
  assert ("***-***-" ++ text last4
          = text (chars "***-***-" ++ last4)) as Ht
    by (by rewrite <- (text_chars ("***-***-" ++ text last4)), chars_app,
          chars_text).
  subst m. unfold Masking.mask_phone. cbn [isna orb str].
  rewrite bool_decide_eq_false_2 by (by intros [=]).
  rewrite Ht, strip_no_space, chars_text.
  - rewrite filter_app.
    change (filter _ (chars "***-***-")) with (@nil ascii). cbn [app].
    rewrite filter_all by done. rewrite Hl. cbn [Nat.leb Nat.sub drop].
    done.
  - rewrite chars_text. apply Forall_app. split; [by repeat constructor|].
    eapply Forall_impl; [exact Hd|]. intros c Hc.
    by destruct (decimal_facts c Hc) as (_ & ? & _).
Qed.

Lemma mask_dob_twice v :
  Masking.mask_dob (Masking.mask_dob v) = Masking.mask_dob v.
Proof.
  remember (Masking.mask_dob v) as m eqn:Hm.
  unfold Masking.mask_dob in Hm.
  destruct (isna v || _ || _) eqn:Hg.
  { subst m. unfold Masking.mask_dob. by rewrite Hg. }
  pose proof (strip_stripped (str v)) as Hs.
  destruct (4 <=? String.length (strip (str v)))%nat eqn:H4.
  - apply Nat.leb_le in H4. rewrite length_chars in H4.
    destruct (chars (strip (str v))) as [|c l] eqn:Hc; [cbn in H4; lia|].
    apply stripped_head in Hs.
    assert (text (take 4 (c :: l)) ++ "-**-**"
            = text (c :: (take 3 l ++ chars "-**-*") ++ ["*"%char])) as Ht.
    { rewrite <- (text_chars (_ ++ "-**-**")), chars_app, chars_text.
      cbn [take]. rewrite <- !app_assoc. done. }
    subst m. rewrite Ht. unfold Masking.mask_dob. cbn [isna orb str].
    assert (length (take 3 l) = 3%nat) as Hl3
      by (rewrite length_take; cbn [length] in H4; lia).
    rewrite bool_decide_eq_false_2 by (by intros [=]).
    rewrite bool_decide_eq_false_2.
    2:{ intros H'. apply (f_equal (λ x, String.length (str x))) in H'.
        cbn [str] in H'.
        rewrite length_chars, chars_text in H'. cbn [length] in H'.
        rewrite !length_app, Hl3 in H'. cbn in H'. lia. }
    cbn [orb]. rewrite strip_of_stripped by (by apply stripped_ends).
    rewrite length_chars, chars_text. cbn [length].
    rewrite !length_app, Hl3. cbn [length Nat.add Nat.leb].
    cbn [take].
    assert (take 3 ((take 3 l ++ chars "-**-*") ++ ["*"%char]) = take 3 l)
      as ->
      by (rewrite <- app_assoc; by rewrite take_app_length').
    by rewrite <- Ht.
  - apply Nat.leb_gt in H4. subst m. unfold Masking.mask_dob.
    cbn [isna orb str]. rewrite strip_idemp.
    destruct (bool_decide (VStr (strip (str v)) = VStr EmptyString)) eqn:He;
      [done|]. cbn [orb].
    rewrite bool_decide_eq_false_2.
    2:{ intros [= H']. rewrite H' in H4. cbn in H4. lia. }
    apply Nat.leb_gt in H4. by rewrite H4.
Qed.

Lemma mask_address_twice v :
  Masking.mask_address (Masking.mask_address v) = Masking.mask_address v.
Proof.
  unfold Masking.mask_address at 2 3. destruct (isna v || _ || _) eqn:Hg.
  - unfold Masking.mask_address. by rewrite Hg.
  - reflexivity.
Qed.

Lemma mask_email_twice v :
  ∃ m, Masking.mask_email v = Ok m
       ∧ (head (chars (strip (str v))) ≠ Some "@"%char →
          Masking.mask_email m = Ok m).
Proof.
  unfold Masking.mask_email at 1.
  destruct (isna v || _) eqn:Hg.
  { eexists. split; [done|]. intros _. unfold Masking.mask_email.
    by rewrite Hg. }
  pose proof (strip_stripped (str v)) as Hs.
  destruct (contains "@" (strip (str v))) eqn:Hc; cbn [negb].
  - apply contains_char, rsplit1_present in Hc as (b & a & Hba & Ha).
    rewrite Hba, (rsplit1_last _ _ _ Ha). eexists. split; [done|].
    intros Hhead. destruct b as [|c b]; [by destruct Hhead|].
    rewrite Hba in Hs.
    assert (String c "***" ++ "@" ++ text a
            = text ((c :: chars "***") ++ "@"%char :: a)) as Ht.
    { by rewrite <- (text_chars (_ ++ _ ++ text a)), !chars_app, chars_text. }
    rewrite Ht. unfold Masking.mask_email. cbn [isna orb str].
    rewrite bool_decide_eq_false_2 by (by intros [=]).
    assert (stripped isspace ((c :: chars "***") ++ "@"%char :: a)) as Hout.
    { pose proof (stripped_head _ _ _ Hs) as Hc.
      destruct (rev a) as [|c' r] eqn:Hr.
      - apply (f_equal (@rev ascii)) in Hr. rewrite rev_involutive in Hr.
        subst a. by apply (stripped_ends _ c (chars "***") "@"%char).
      - apply (f_equal (@rev ascii)) in Hr. rewrite rev_involutive in Hr.
        cbn [rev] in Hr. subst a.
        assert (isspace c' = false) as Hc'.
        { apply (stripped_last isspace ((c :: b) ++ "@"%char :: rev r)).
          by rewrite <- app_assoc. }
        replace ((c :: chars "***") ++ "@"%char :: rev r ++ [c'])%list
          with (c :: (chars "***" ++ "@"%char :: rev r) ++ [c'])%list
          by (cbn [app]; by rewrite <- !app_assoc).
        by apply stripped_ends. }
    rewrite (strip_of_stripped _ Hout).
    assert (contains "@" (text ((c :: chars "***") ++ "@"%char :: a)) = true)
      as -> by (apply contains_char; rewrite chars_text; set_solver).
    cbn [negb]. rewrite chars_text, (rsplit1_last _ _ _ Ha). done.
  - eexists. split; [done|]. intros _. unfold Masking.mask_email.
    cbn [isna orb str]. rewrite strip_idemp, Hc. cbn [negb].
    by destruct (bool_decide (VStr (strip (str v)) = VStr EmptyString)).
Qed.

(** X17: [mask_name], [mask_phone], [mask_dob] and [mask_address] return
    their own results unchanged.  [mask_email] never raises, the unpacking
    of the split at the last [@] finding two parts whenever it is reached,
    and it returns its own result unchanged unless the stripped text
    begins with [@]. *)
Theorem masking_twice v :
  Masking.mask_name (Masking.mask_name v) = Masking.mask_name v
  ∧ Masking.mask_phone (Masking.mask_phone v) = Masking.mask_phone v
  ∧ Masking.mask_dob (Masking.mask_dob v) = Masking.mask_dob v
  ∧ Masking.mask_address (Masking.mask_address v) = Masking.mask_address v
  ∧ ∃ m, Masking.mask_email v = Ok m
         ∧ (head (chars (strip (str v))) ≠ Some "@"%char →
            Masking.mask_email m = Ok m).
Proof.
  split_and!;
    [ apply mask_name_twice | apply mask_phone_twice | apply mask_dob_twice
    | apply mask_address_twice | apply mask_email_twice ].
Qed.

Lemma mask_email_returns v : ∃ m, Masking.mask_email v = Ok m.
Proof. destruct (mask_email_twice v) as (m & Hm & _). by exists m. Qed.

Lemma apply_returns f values :
  (∀ v, ∃ c, f v = Ok c) →
  ∃ values', Masking.apply f values = Ok values'
             ∧ length values' = length values.
Proof.
  intros Hf. induction values as [|v values (values' & IH & Hl)].
  - by exists [].
  - cbn [Masking.apply]. destruct (Hf v) as [c ->]. rewrite IH.
    cbn [mbind result_bind bind]. eexists. split; [done|].
    cbn [length]. by rewrite Hl.
Qed.

Lemma apply_in_returns col f cs :
  (∀ v, ∃ c, f v = Ok c) →
  ∃ cs', Masking.apply_in col f cs = Ok cs'
         ∧ cs'.*1 = cs.*1
         ∧ (λ c, length c.2) <$> cs' = (λ c, length c.2) <$> cs
         ∧ ∀ c, c ≠ col → lookup_column c cs' = lookup_column c cs.
Proof.
  intros Hf. induction cs as [|[name values] cs (cs' & IH & Hn & Hl & Hk)].
  - exists []. by repeat split.
  - cbn [Masking.apply_in]. destruct (decide (name = col)) as [->|Hne].
    + destruct (apply_returns f values Hf) as (values' & -> & Hlen).
      cbn [mbind result_bind bind]. eexists. split_and!; [done| | |].
      * done.
      * cbn [fmap list_fmap snd]. by rewrite Hlen.
      * intros c Hc. cbn [lookup_column]. by rewrite !decide_False.
    + rewrite IH. cbn [mbind result_bind bind]. eexists.
      split_and!; [done| | |].
      * cbn [fmap list_fmap fst]. by f_equal.
      * cbn [fmap list_fmap snd]. by f_equal.
      * intros c Hc. cbn [lookup_column]. case_decide; [done|by apply Hk].
Qed.

Lemma masked_column_same_but col f df :
  (∀ v, ∃ c, f v = Ok c) →
  ∃ df', Masking.masked_column col f df = Ok df' ∧ same_but [col] df df'.
Proof.
  intros Hf. unfold Masking.masked_column.
  destruct (apply_in_returns col f (columns df) Hf)
    as (cs' & -> & Hn & Hl & Hk).
  cbn [mbind result_bind bind]. eexists. split; [done|].
  split_and!; [done..|]. intros c Hc. apply Hk. set_solver.
Qed.

Lemma same_but_trans cols1 cols2 df1 df2 df3 :
  same_but cols1 df1 df2 → same_but cols2 df2 df3 →
  same_but (cols1 ++ cols2) df1 df3.
Proof.
  intros (Hi & Hn & Hl & Hk) (Hi' & Hn' & Hl' & Hk'). split_and!.
  - congruence.
  - congruence.
  - congruence.
  - intros c [Hc1 Hc2]%not_elem_of_app. rewrite (Hk' c Hc2). by apply Hk.
Qed.

Lemma same_but_wf cols df df' : df_wf df → same_but cols df df' → df_wf df'.
Proof.
  intros [Hlen Hnd] (Hi & Hn & Hl & _). split; [|by rewrite Hn].
  rewrite Hi.
  apply (Forall_fmap (λ c, length c.2) (λ n, n = index_len df)).
  rewrite Hl. by apply Forall_fmap.
Qed.

(** X18: [mask_dataframe] returns for every well-formed frame; the frame
    it returns is well formed, has the same number of records and the
    same column names in the same order, and has the values of the
    original in every column other than the six it masks, so that
    [analyze_uniqueness] and [validate_customer_id] give for it what they
    give for the original. *)
Theorem mask_dataframe_keeps_the_rest df :
  df_wf df →
  ∃ df', Masking.mask_dataframe df = Ok df'
         ∧ df_wf df' ∧ len df' = len df
         ∧ (columns df').*1 = (columns df).*1
         ∧ (∀ c, c ∉ pii_columns →
                 lookup_column c (columns df') = lookup_column c (columns df))
         ∧ analyze_uniqueness df' = analyze_uniqueness df
         ∧ validate_customer_id (init df')
           = (extend (init df') (failures (validate_customer_id (init df)).1),
              (validate_customer_id (init df)).2).
Proof.
  intros Hwf. unfold Masking.mask_dataframe.
  assert (∀ g : cell → cell, ∀ v, ∃ c, (λ v, Ok (g v)) v = Ok c) as Hg
    by (intros g v; by eexists).
  destruct (masked_column_same_but "first_name" _ df
              (Hg Masking.mask_name)) as (df1 & -> & H1).
  cbn [mbind result_bind bind].
  destruct (masked_column_same_but "last_name" _ df1
              (Hg Masking.mask_name)) as (df2 & -> & H2).
  cbn [mbind result_bind bind].
  destruct (masked_column_same_but "email" _ df2 mask_email_returns)
    as (df3 & -> & H3).
  cbn [mbind result_bind bind].
  destruct (masked_column_same_but "phone" _ df3
              (Hg Masking.mask_phone)) as (df4 & -> & H4).
  cbn [mbind result_bind bind].
  destruct (masked_column_same_but "date_of_birth" _ df4
              (Hg Masking.mask_dob)) as (df5 & -> & H5).
  cbn [mbind result_bind bind].
  destruct (masked_column_same_but "address" _ df5
              (Hg Masking.mask_address)) as (df6 & -> & H6).
  pose proof (same_but_trans _ _ _ _ _
                (same_but_trans _ _ _ _ _
                   (same_but_trans _ _ _ _ _
                      (same_but_trans _ _ _ _ _
                         (same_but_trans _ _ _ _ _ H1 H2) H3) H4) H5) H6)
    as H.
  cbn [app] in H. fold pii_columns in H.
  exists df6. split; [done|]. pose proof (same_but_wf _ _ _ Hwf H) as Hwf'.
  destruct H as (Hi & Hn & Hl & Hk). split_and!; [done..| |].
  - unfold analyze_uniqueness, getitem.
    by rewrite Hk by (unfold pii_columns; set_solver).
  - rewrite !validate_customer_id_eq. cbn [Validation.df init].
    rewrite Hk by (unfold pii_columns; set_solver).
    destruct (lookup_column "customer_id" (columns df)); cbn [fst snd].
    + cbn [extend init failures app]. done.
    + by rewrite extend_nil.
Qed.

Lemma mask_dataframe_keeps_the_rest_witness :
  ∃ df', Masking.mask_dataframe sample = Ok df'
         ∧ df_wf df' ∧ len df' = len sample
         ∧ (columns df').*1 = (columns sample).*1
         ∧ (∀ c, c ∉ pii_columns →
                 lookup_column c (columns df')
                 = lookup_column c (columns sample))
         ∧ analyze_uniqueness df' = analyze_uniqueness sample
         ∧ validate_customer_id (init df')
           = (extend (init df')
                (failures (validate_customer_id (init sample)).1),
              (validate_customer_id (init sample)).2).
Proof. apply (mask_dataframe_keeps_the_rest sample). exact sample_wf. Defined.





Lemma issues_per_failure_witness :
  Forall (λ f, (1 ≤ length (issues f) ≤ 2)%nat
               ∧ (column f ∉ ["customer_id"; "first_name"; "last_name"] →
                  length (issues f) = 1%nat))
    (failures sample_run).
Proof.
  apply (issues_per_failure sample sample_run). vm_compute. reflexivity.
Defined.
